(** * FARM prediction heads: a shallow embedding of
      [farm/modeling/prediction_head.py]

    The file follows the source class by class.  Tensors of floats are
    lists of rationals (every finite float is a rational), loss values
    are real numbers (the logarithm of the cross entropy is taken in
    [R]; rounding is not modelled), integer tensors are lists of [Z],
    Python exceptions are the [Raise] branch of [result]. *)

From Stdlib Require Import ZArith List String Ascii QArith Reals Qreals Lra Lia Bool Sorted.
From Stdlib Require Import DecimalString.
From Stdlib Require DecimalZ DecimalPos.
From stdpp Require Import gmap strings.
Import ListNotations.

Local Open Scope string_scope.
Local Open Scope list_scope.
Local Open Scope Z_scope.

(** ** Python, numpy and torch primitives used by the heads *)

Module Py.

(** The exceptions the modelled code can raise. *)
Inductive exn : Type :=
| IndexError
| TypeError
| ValueError
| KeyError
| RuntimeError
| AttributeError
| NotImplementedError (msg : string).

Inductive result (A : Type) : Type :=
| Ok (a : A)
| Raise (e : exn).
Arguments Ok {A} a.
Arguments Raise {A} e.

Definition bind {A B} (m : result A) (k : A -> result B) : result B :=
  match m with
  | Ok a => k a
  | Raise e => Raise e
  end.

Definition is_ok {A} (m : result A) : bool :=
  match m with Ok _ => true | Raise _ => false end.

(** [for x in xs: ...] with a body that may raise. *)
Fixpoint mapM {A B} (f : A -> result B) (xs : list A) : result (list B) :=
  match xs with
  | [] => Ok []
  | x :: xs' =>
      bind (f x) (fun y => bind (mapM f xs') (fun ys => Ok (y :: ys)))
  end.

(** [for x in xs: acc = body(acc, x)] with a body that may raise. *)
Fixpoint foldM {A S} (body : S -> A -> result S) (xs : list A) (acc : S)
  : result S :=
  match xs with
  | [] => Ok acc
  | x :: xs' => bind (body acc x) (foldM body xs')
  end.

(** [enumerate(xs)] *)
Definition enumerate {A} (xs : list A) : list (nat * A) :=
  combine (seq 0 (length xs)) xs.

(** [zip(a, b, c)]: stops at the shortest argument. *)
Definition zip3 {A B C} (a : list A) (b : list B) (c : list C)
  : list (A * B * C) :=
  combine (combine a b) c.

(** [xs[i]] on a list (or a 1-d array) for an index [i >= 0]; a negative
    [i] counts from the end, as in Python. *)
Definition getitem {A} (xs : list A) (i : Z) : result A :=
  let n := Z.of_nat (length xs) in
  let j := if i <? 0 then i + n else i in
  if (j <? 0) || (n <=? j) then Raise IndexError
  else match nth_error xs (Z.to_nat j) with
       | Some x => Ok x
       | None => Raise IndexError
       end.

(** [xs[lo:hi]]: never raises, bounds are clipped. *)
Definition slice_bound (n i : Z) : Z :=
  if i <? 0 then Z.max 0 (i + n) else Z.min i n.

Definition slice {A} (xs : list A) (lo hi : Z) : list A :=
  let n := Z.of_nat (length xs) in
  let lo' := slice_bound n lo in
  let hi' := slice_bound n hi in
  firstn (Z.to_nat (hi' - lo')) (skipn (Z.to_nat lo') xs).

(** Signed 64-bit wrap-around of numpy's and torch's [int64]. *)
Definition wrap64 (z : Z) : Z := (z + 2 ^ 63) mod 2 ^ 64 - 2 ^ 63.

(** The index of the first maximum of a row; [best] is the maximum seen
    so far and [best_i] its index, [i] the index of the head of [xs]. *)
Fixpoint argmax_from (best : Q) (best_i i : nat) (xs : list Q) : nat :=
  match xs with
  | [] => best_i
  | x :: xs' =>
      if Qle_bool x best then argmax_from best best_i (S i) xs'
      else argmax_from x i (S i) xs'
  end.

(** [argmax] of one row; an empty row has no maximum. *)
Definition argmax (row : list Q) : result Z :=
  match row with
  | [] => Raise IndexError
  | x :: xs => Ok (Z.of_nat (argmax_from x 0 1 xs))
  end.

(** [torch.argmax(t, dim=1)] of a 2-d tensor given by its rows. *)
Definition torch_argmax_dim1 (t : list (list Q)) : result (list Z) :=
  mapM argmax t.

(** The index of the first [true] of a row, 0 when there is none. *)
Fixpoint first_true (i : nat) (row : list bool) : nat :=
  match row with
  | [] => O
  | b :: row' => if b then i else first_true (S i) row'
  end.

(** [np.argmax(m, axis=1)] of a 2-d boolean array: [True] is the
    maximum, so the first [True] of each row is found, and 0 for a row
    of [False]s.  An empty row raises [ValueError]. *)
Definition np_argmax_bool_axis1 (m : list (list bool)) : result (list Z) :=
  mapM (fun row => match row with
                   | [] => Raise ValueError
                   | _ => Ok (Z.of_nat (first_true 0 row))
                   end) m.

(** Elementwise binary operation on two 1-d arrays with numpy's
    broadcasting: equal lengths, or one of them of length 1. *)
Fixpoint map2 {A B C} (f : A -> B -> C) (a : list A) (b : list B) : list C :=
  match a, b with
  | x :: a', y :: b' => f x y :: map2 f a' b'
  | _, _ => []
  end.

Definition broadcast2 {A B C} (f : A -> B -> C) (a : list A) (b : list B)
  : result (list C) :=
  if Nat.eqb (length a) (length b) then Ok (map2 f a b)
  else match a, b with
       | [x], _ => Ok (map (f x) b)
       | _, [y] => Ok (map (fun x => f x y) a)
       | _, _ => Raise ValueError
       end.

(** [a - b] and [a + k] on [int64] arrays. *)
Definition np_sub (a b : list Z) : result (list Z) :=
  broadcast2 (fun x y => wrap64 (x - y)) a b.

Definition np_add_scalar (a : list Z) (k : Z) : list Z :=
  map (fun x => wrap64 (x + k)) a.

(** [a[a < 0] = 0] *)
Definition np_clamp_negative (a : list Z) : list Z :=
  map (fun x => if x <? 0 then 0 else x) a.

(** [len(s)] of a [str].  A character of the model is one code point of
    the Python string. *)
Definition len (s : string) : Z := Z.of_nat (String.length s).

(** [s.replace(old, new)]: the occurrences of [old] are replaced from
    left to right without overlap.  [skip] counts the characters of an
    occurrence that are still to be dropped. *)
Fixpoint replace_from (old new : string) (skip : nat) (s : string) : string :=
  match s with
  | EmptyString => EmptyString
  | String c rest =>
      match skip with
      | S k => replace_from old new k rest
      | O =>
          if String.prefix old s
          then new +:+ replace_from old new (String.length old - 1) rest
          else String c (replace_from old new 0 rest)
      end
  end.

(** With an empty [old], [new] is put before every character and at the
    end. *)
Fixpoint intersperse_all (new s : string) : string :=
  match s with
  | EmptyString => new
  | String c rest => new +:+ String c (intersperse_all new rest)
  end.

Definition str_replace (s old new : string) : string :=
  match old with
  | EmptyString => intersperse_all new s
  | _ => replace_from old new 0 s
  end.

(** [sep.join(xs)] *)
Fixpoint str_join (sep : string) (xs : list string) : string :=
  match xs with
  | [] => EmptyString
  | [x] => x
  | x :: xs' => x +:+ sep +:+ str_join sep xs'
  end.


(** [row.argmax()] of numpy: the first maximum; an empty row raises
    [ValueError]. *)
Definition np_argmax (row : list Q) : result Z :=
  match row with
  | [] => Raise ValueError
  | x :: xs => Ok (Z.of_nat (argmax_from x 0 1 xs))
  end.

(** [m.argmax(1)] of a 2-d array given by its rows. *)
Definition np_argmax_axis1 (m : list (list Q)) : result (list Z) :=
  mapM np_argmax m.

(** A call that may also stop at an [assert]. *)
Inductive checked (A : Type) : Type :=
| Passed (r : result A)
| AssertionError.
Arguments Passed {A} r.
Arguments AssertionError {A}.

End Py.

Export Py.

(** The error monad is written with stdpp's [x ← m; k]. *)
#[global] Instance result_ret : MRet result := @Ok.
#[global] Instance result_bind : MBind result := fun A B k m => bind m k.

(** ** Tensors

    A tensor is a contiguous view of a whole storage: a pointer into the
    store and a shape.  [view] and [squeeze] return a tensor on the same
    storage, so an in-place operation on the result is seen through
    every tensor on that storage.  Loss values are fresh tensors and are
    kept as values outside the store. *)

Module Torch.

Inductive storage : Type :=
| IntStorage (data : list Z)
| FloatStorage (data : list Q).

Record tensor : Type := { data_ptr : nat; shape : list nat }.

Definition numel (t : tensor) : nat := fold_right Nat.mul 1%nat (shape t).

(** Computations that read and write the store and may raise; the store
    survives an exception. *)
Definition M (A : Type) : Type :=
  gmap nat storage -> result A * gmap nat storage.

#[global] Instance M_ret : MRet M := fun A a h => (Ok a, h).
#[global] Instance M_bind : MBind M := fun A B k m h =>
  match m h with
  | (Ok a, h') => k a h'
  | (Raise e, h') => (Raise e, h')
  end.

Definition lift {A} (r : result A) : M A := fun h => (r, h).


(** The flat contents of an integer or of a float tensor. *)
Definition read_int (t : tensor) : M (list Z) := fun h =>
  match h !! data_ptr t with
  | Some (IntStorage d) =>
      if Nat.eqb (length d) (numel t) then (Ok d, h) else (Raise RuntimeError, h)
  | _ => (Raise RuntimeError, h)
  end.

Definition read_float (t : tensor) : M (list Q) := fun h =>
  match h !! data_ptr t with
  | Some (FloatStorage d) =>
      if Nat.eqb (length d) (numel t) then (Ok d, h) else (Raise RuntimeError, h)
  | _ => (Raise RuntimeError, h)
  end.

(** [t.clamp_(lo, hi)] on an integer tensor: the storage is overwritten. *)
Definition clamp (lo hi x : Z) : Z := Z.min (Z.max x lo) hi.

Definition clamp_ (t : tensor) (lo hi : Z) : M unit := fun h =>
  match h !! data_ptr t with
  | Some (IntStorage d) =>
      (Ok tt, <[data_ptr t := IntStorage (map (clamp lo hi) d)]> h)
  | _ => (Raise RuntimeError, h)
  end.

(** [t.view(-1)] *)
Definition view_flat (t : tensor) : tensor :=
  {| data_ptr := data_ptr t; shape := [numel t] |}.

(** [t.view(-1, k)]: the number of elements must be a multiple of [k],
    and [k = 0] leaves the other dimension undetermined. *)
Definition view_rows (t : tensor) (k : nat) : result tensor :=
  if Nat.eqb k 0 || negb (Nat.eqb (numel t mod k) 0) then Raise RuntimeError
  else Ok {| data_ptr := data_ptr t; shape := [(numel t / k)%nat; k] |}.

(** [t.view(-1, k)] for a Python integer [k]. *)
Definition view_rows_z (t : tensor) (k : Z) : result tensor :=
  if k <=? 0 then Raise RuntimeError else view_rows t (Z.to_nat k).

(** [t.squeeze(-1)]: the last dimension is dropped when it is 1. *)
Definition squeeze_last (t : tensor) : tensor :=
  match rev (shape t) with
  | 1%nat :: r => {| data_ptr := data_ptr t; shape := rev r |}
  | _ => t
  end.

(** [t.size(d)] and [t.shape[d]] *)
Definition size (t : tensor) (d : nat) : result nat :=
  match nth_error (shape t) d with
  | Some n => Ok n
  | None => Raise IndexError
  end.

(** The [n] rows of length [k] of flat row-major data. *)
Definition rows_of {A} (n k : nat) (data : list A) : list (list A) :=
  map (fun i => firstn k (skipn (i * k) data)) (seq 0 n).

(** *** [torch.nn.CrossEntropyLoss] *)

Inductive reduction : Type := ReductionNone | ReductionMean | ReductionSum.

Record CrossEntropyLoss : Type := {
  weight : option (list Q);
  ignore_index : Z;
  loss_reduction : reduction
}.

(** A loss is a 1-d tensor under [reduction="none"] and a 0-d tensor
    otherwise. *)
Inductive loss_t : Type :=
| Vector (v : list R)
| Scalar (x : R).

Definition Rsum (xs : list R) : R := fold_right Rplus 0%R xs.

(** The negative log-likelihood of class [t] under the softmax of a row
    of logits. *)
Definition nll (row : list Q) (t : nat) : R :=
  (ln (Rsum (map (fun q => exp (Q2R q)) row)) - Q2R (nth t row 0%Q))%R.

Definition class_weight (w : option (list Q)) (t : nat) : R :=
  match w with
  | None => 1%R
  | Some ws => Q2R (nth t ws 0%Q)
  end.

(** The weighted loss of one position among [c] classes and the weight
    it counts with in a mean; an ignored target gives zero for both, a
    target that is neither ignored nor a class index raises. *)
Definition position_loss (L : CrossEntropyLoss) (c : nat) (row : list Q)
    (target : Z) : result (R * R) :=
  if target =? ignore_index L then Ok (0%R, 0%R)
  else if (0 <=? target) && (target <? Z.of_nat c) then
    let w := class_weight (weight L) (Z.to_nat target) in
    Ok ((w * nll row (Z.to_nat target))%R, w)
  else Raise IndexError.

(** The loss of [n] rows of [c] logits against [n] targets. *)
Definition cross_entropy (L : CrossEntropyLoss) (c : nat)
    (rows : list (list Q)) (targets : list Z) : result loss_t :=
  if negb (Nat.eqb (length rows) (length targets)) then Raise ValueError
  else if match weight L with
          | Some ws => negb (Nat.eqb (length ws) c)
          | None => false
          end then Raise RuntimeError
  else
    ps ← mapM (fun '(row, t) => position_loss L c row t) (combine rows targets);
    Ok match loss_reduction L with
       | ReductionNone => Vector (map fst ps)
       | ReductionSum => Scalar (Rsum (map fst ps))
       | ReductionMean => Scalar (Rsum (map fst ps) / Rsum (map snd ps))%R
       end.

(** The rows of a 2-d float tensor. *)
Definition read_rows (t : tensor) : M (list (list Q)) :=
  match shape t with
  | [n; c] => x ← read_float t; mret (rows_of n c x)
  | _ => lift (Raise ValueError)
  end.

(** [loss_fct(input, target)] on tensors: a 2-d float input [n, c] and
    a 1-d integer target; with a 1-d target every other input shape is
    refused by torch. *)
Definition loss_fct (L : CrossEntropyLoss) (input target : tensor)
  : M loss_t :=
  match shape target with
  | [_] =>
      rows ← read_rows input;
      y ← read_int target;
      lift (cross_entropy L (nth 1 (shape input) 0%nat) rows y)
  | _ => lift (Raise ValueError)
  end.

(** [x[mask]] for a boolean mask over the first dimension: the mask must
    be as long as [x]. *)
Definition mask_select {A} (x : list A) (mask : list bool) : result (list A) :=
  if Nat.eqb (length x) (length mask)
  then Ok (map fst (List.filter snd (combine x mask)))
  else Raise IndexError.

(** [v.view(-1, k)] of a 1-d tensor of loss values, as its rows. *)
Definition view_rows_values (v : list R) (k : nat) : result (list (list R)) :=
  if Nat.eqb k 0 || negb (Nat.eqb (length v mod k) 0) then Raise RuntimeError
  else Ok (rows_of (length v / k) k v).

(** [m.mean(dim=0)] of a 2-d tensor with rows of length [k]: the mean of
    every column.  Without rows torch gives nan; the quotient by zero
    stands for it. *)
Definition mean_dim0 (k : nat) (rows : list (list R)) : list R :=
  map (fun j => (Rsum (map (fun row => nth j row 0%R) rows)
                 / INR (length rows))%R)
      (seq 0 k).

(** [(a + b) / 2] on two 1-d loss tensors. *)
Definition half_sum (a b : list R) : result (list R) :=
  s ← broadcast2 Rplus a b;
  Ok (map (fun x => (x / 2)%R) s).


(** Position tensors of [n] entries: shape [n] or [n, 1]. *)
Definition position_shape (n : nat) (p : tensor) : Prop :=
  shape p = [n] \/ shape p = [n; 1%nat].

(** The targets that [cross_entropy] accepts. *)
Definition valid_target (L : CrossEntropyLoss) (c : nat) (t : Z) : Prop :=
  t = ignore_index L \/ 0 <= t < Z.of_nat c.

Definition weight_fits (L : CrossEntropyLoss) (c : nat) : Prop :=
  match weight L with
  | Some ws => length ws = c
  | None => True
  end.


(** [torch.nn.Softmax] along a row of logits. *)
Definition softmax (row : list Q) : list R :=
  map (fun q => (exp (Q2R q) / Rsum (map (fun q' => exp (Q2R q')) row))%R) row.

(** [torch.max(t, dim)[0]] along a row: an empty row has no maximum. *)
Definition max_of (xs : list R) : result R :=
  match xs with
  | [] => Raise IndexError
  | x :: xs' => Ok (fold_left Rmax xs' x)
  end.

(** The probability of the predicted class: [softmax] then [max]. *)
Definition max_prob (row : list Q) : result R := max_of (softmax row).

End Torch.

(** ** Samples

    [farm.data_handler.samples.Sample] as the heads read it: the
    dictionaries [clear_text] and [tokenized] with the keys the heads
    access. *)

Record clear_text_t : Type := {
  text : string;
  question_text : string;
  doc_tokens : list string
}.

Record tokenized_t : Type := {
  tokens : list string;
  offsets : list Z;
  start_of_word : list bool
}.

Record Sample : Type := {
  clear_text : clear_text_t;
  tokenized : tokenized_t
}.

(** A character span, the dictionary [{"start": _, "end": _}]. *)
Record span : Type := { span_start : Z; span_end : Z }.

(** ** Persistence

    The files that [save] and [save_config] write and the messages sent
    to the logger.  The target directory is taken to exist. *)

Inductive json : Type :=
| JNull
| JBool (b : bool)
| JInt (z : Z)
| JStr (s : string)
| JInts (xs : list Z)
| JNums (xs : list Q).

Definition config_t : Type := list (string * json).
Definition state_dict_t : Type := list (string * list Q).

Inductive file : Type :=
| TorchFile (state_dict : state_dict_t)
| JsonFile (config : config_t).

Record world : Type := {
  files : gmap string file;
  log : list string
}.

(** [os.path.join(a, b)] *)
Definition starts_with_slash (s : string) : bool :=
  String.prefix "/" s.

Fixpoint ends_with_slash (s : string) : bool :=
  match s with
  | EmptyString => false
  | String c EmptyString => Ascii.eqb c "/"
  | String _ rest => ends_with_slash rest
  end.

Definition os_path_join (a b : string) : string :=
  if starts_with_slash b then b
  else match a with
       | EmptyString => b
       | _ => if ends_with_slash a then a +:+ b else a +:+ "/" +:+ b
       end.

(** [str(n)] of an integer, as an f-string formats it. *)
Definition str_of_int (n : Z) : string := NilZero.string_of_int (Z.to_int n).

Definition write_file (path : string) (content : file) (w : world) : world :=
  {| files := <[path := content]> (files w); log := log w |}.

Definition logger_warning (msg : string) (w : world) : world :=
  {| files := files w; log := log w ++ [msg] |}.

Module PredictionHead.

Definition config_path (save_dir : string) (head_num : Z) : string :=
  os_path_join save_dir ("prediction_head_" +:+ str_of_int head_num +:+ "_config.json").

Definition model_path (save_dir : string) (head_num : Z) : string :=
  os_path_join save_dir ("prediction_head_" +:+ str_of_int head_num +:+ ".bin").

(** [save_config]:
<<
    output_config_file = os.path.join(
        save_dir, f"prediction_head_{head_num}_config.json")
    with open(output_config_file, "w") as file:
        json.dump(self.config, file)
>> *)
Definition save_config (config : config_t) (save_dir : string) (head_num : Z)
    (w : world) : world :=
  write_file (config_path save_dir head_num) (JsonFile config) w.

(** [save] of the base class:
<<
    output_model_file = os.path.join(save_dir, f"prediction_head_{head_num}.bin")
    torch.save(self.state_dict(), output_model_file)
    self.save_config(save_dir, head_num)
>> *)
Definition save (state_dict : state_dict_t) (config : config_t)
    (save_dir : string) (head_num : Z) (w : world) : world :=
  let w := write_file (model_path save_dir head_num) (TorchFile state_dict) w in
  save_config config save_dir head_num w.

End PredictionHead.

(** ** TextClassificationHead *)

Module TextClassificationHead.

Record t : Type := {
  layer_dims : list Z;
  num_labels : Z;
  class_weights : option (list Q);
  loss_fct : Torch.CrossEntropyLoss
}.

(** [__init__(layer_dims, class_weights=None, loss_ignore_index=-100,
    loss_reduction="none")]: an empty or missing [class_weights] gives
    the unweighted loss. *)
Definition truthy (class_weights : option (list Q)) : bool :=
  match class_weights with
  | Some (_ :: _) => true
  | _ => false
  end.

Definition init (layer_dims : list Z) (class_weights : option (list Q))
    (loss_ignore_index : Z) (loss_reduction : Torch.reduction) : result t :=
  n ← getitem layer_dims (-1);
  Ok {| layer_dims := layer_dims;
        num_labels := n;
        class_weights := class_weights;
        loss_fct :=
          {| Torch.weight := if truthy class_weights then class_weights else None;
             Torch.ignore_index := loss_ignore_index;
             Torch.loss_reduction := loss_reduction |} |}.

(** [logits_to_loss]: [self.loss_fct(logits, label_ids.view(-1))] *)
Definition logits_to_loss (self : t) (logits label_ids : Torch.tensor)
  : Torch.M Torch.loss_t :=
  Torch.loss_fct (loss_fct self) logits (Torch.view_flat label_ids).


(** [logits_to_preds]:
<<
    logits = logits.cpu().numpy()
    pred_ids = logits.argmax(1)
    preds = [label_map[x] for x in pred_ids]
>>
    [label_map] is given by its [__getitem__]. *)
Definition logits_to_preds (logits : list (list Q))
    (label_map : Z -> result string) : result (list string) :=
  pred_ids ← np_argmax_axis1 logits;
  mapM label_map pred_ids.

(** [prepare_labels]: [[label_map[int(x)] for x in label_ids]] *)
Definition prepare_labels (label_map : Z -> result string)
    (label_ids : list Z) : result (list string) :=
  mapM label_map label_ids.

(** [logits_to_probs]:
<<
    probs = softmax(logits)
    probs = torch.max(probs, dim=1)[0]
>> *)
Definition logits_to_probs (logits : list (list Q)) : result (list R) :=
  mapM Torch.max_prob logits.


(** The prediction record and the result of [formatted_preds]; [start]
    and [end] are [None]. *)
Record pred_t : Type := {
  pred_start : option Z;
  pred_end : option Z;
  pred_context : string;
  pred_label : string;
  pred_probability : R
}.

Record formatted_t : Type := {
  task : string;
  predictions : list pred_t
}.

(** [formatted_preds]:
<<
    preds = self.logits_to_preds(logits, label_map)
    probs = self.logits_to_probs(logits)
    contexts = [sample.clear_text["text"] for sample in samples]
    assert len(preds) == len(probs) == len(contexts)
    res = {"task": "text_classification", "predictions": []}
    for pred, prob, context in zip(preds, probs, contexts):
        res["predictions"].append({"start": None, "end": None,
            "context": f"{context}", "label": f"{pred}", "probability": prob})
>> *)
Definition formatted_preds (logits : list (list Q))
    (label_map : Z -> result string) (samples : list Sample)
  : checked formatted_t :=
  match logits_to_preds logits label_map with
  | Raise e => Passed (Raise e)
  | Ok preds =>
      match logits_to_probs logits with
      | Raise e => Passed (Raise e)
      | Ok probs =>
          let contexts := map (fun sample => text (clear_text sample)) samples in
          if Nat.eqb (length preds) (length probs)
             && Nat.eqb (length probs) (length contexts)
          then
            Passed (Ok {| task := "text_classification";
                          predictions :=
                            map (fun '(pred, prob, context) =>
                                   {| pred_start := None;
                                      pred_end := None;
                                      pred_context := context;
                                      pred_label := pred;
                                      pred_probability := prob |})
                                (zip3 preds probs contexts) |})
          else AssertionError
      end
  end.

End TextClassificationHead.

(** ** TokenClassificationHead *)

Module TokenClassificationHead.

(** [initial_token_only(seq, initial_mask)]:
<<
    ret = []
    for init, s in zip(initial_mask, seq):
        if init:
            ret.append(s)
    return ret
>>
    The flags are the booleans the loop tests. *)
Definition initial_token_only {A} (seq : list A) (initial_mask : list bool)
  : list A :=
  fold_left
    (fun ret '(init, s) => if (init : bool) then ret ++ [s] else ret)
    (combine initial_mask seq) [].

(** The positions of a mask that hold [true], in increasing order. *)
Definition true_positions (mask : list bool) : list nat :=
  List.filter (fun i => nth i mask false) (seq 0 (length mask)).

(** The head: [num_labels = layer_dims[-1]] and
    [loss_fct = CrossEntropyLoss(reduction="none")]. *)
Record t : Type := { layer_dims : list Z; num_labels : Z }.

Definition init (layer_dims : list Z) : result t :=
  n ← getitem layer_dims (-1);
  Ok {| layer_dims := layer_dims; num_labels := n |}.

Definition loss_fct : Torch.CrossEntropyLoss :=
  {| Torch.weight := None; Torch.ignore_index := -100;
     Torch.loss_reduction := Torch.ReductionNone |}.

(** [logits_to_loss]:
<<
    active_loss = padding_mask.view(-1) == 1
    active_logits = logits.view(-1, self.num_labels)[active_loss]
    active_labels = label_ids.view(-1)[active_loss]
    loss = self.loss_fct(active_logits, active_labels)
>>
    [padding_mask] defaults to [None], which has no [view]. *)
Definition logits_to_loss (self : t) (logits label_ids initial_mask : Torch.tensor)
    (padding_mask : option Torch.tensor) : Torch.M Torch.loss_t :=
  match padding_mask with
  | None => Torch.lift (Raise AttributeError)
  | Some padding_mask =>
      pm ← Torch.read_int (Torch.view_flat padding_mask);
      let active_loss := map (fun x => x =? 1) pm in
      lv ← Torch.lift (Torch.view_rows_z logits (num_labels self));
      rows ← Torch.read_rows lv;
      active_logits ← Torch.lift (Torch.mask_select rows active_loss);
      y ← Torch.read_int (Torch.view_flat label_ids);
      active_labels ← Torch.lift (Torch.mask_select y active_loss);
      Torch.lift (Torch.cross_entropy loss_fct (Z.to_nat (num_labels self))
                    active_logits active_labels)
  end.

(** The state of the inner loop of [formatted_preds]: the list
    [word_spans] and the variable [span], which is [None] until the
    first word starts. *)
Definition span_state : Type := list (option span) * option span.

(** One iteration of
<<
    for token, offset, start_of_word in zip(tokens, offsets, start_of_word):
        if start_of_word:
            if span is not None:
                word_spans.append(span)
            span = {"start": offset, "end": offset + len(token)}
        else:
            span["end"] = offset + len(token.replace("##", ""))
>>
    Assigning into [span] while it is [None] raises [TypeError]. *)
Definition span_step (st : span_state) (x : string * Z * bool)
  : result span_state :=
  let '(word_spans, span) := st in
  let '(token, offset, start_of_word) := x in
  if start_of_word then
    let word_spans' :=
      match span with
      | Some _ => word_spans ++ [span]
      | None => word_spans
      end in
    Ok (word_spans',
        Some {| span_start := offset; span_end := offset + len token |})
  else
    match span with
    | Some sp =>
        Ok (word_spans,
            Some {| span_start := span_start sp;
                    span_end := offset + len (str_replace token "##" "") |})
    | None => Raise TypeError
    end.

(** The spans of one sample: the loop, then [word_spans.append(span)]. *)
Definition word_spans_of (sample : Sample) : result (list (option span)) :=
  '(word_spans, span) ←
    foldM span_step
      (zip3 (tokens (tokenized sample)) (offsets (tokenized sample))
            (start_of_word (tokenized sample)))
      ([], None);
  Ok (word_spans ++ [span]).

(** The spans of a sample whose first word has started, written without
    the accumulator: [cur] is the span of the word being read.  The loop
    above is compared with it below. *)
Fixpoint spans_from (cur : span) (rest : list (string * Z * bool))
  : list span :=
  match rest with
  | [] => [cur]
  | (token, offset, true) :: rest' =>
      cur :: spans_from
               {| span_start := offset; span_end := offset + len token |} rest'
  | (token, offset, false) :: rest' =>
      spans_from
        {| span_start := span_start cur;
           span_end := offset + len (str_replace token "##" "") |} rest'
  end.

(** The outer loop [for sample, sample_preds in zip(samples, preds)]. *)
Definition spans_of_batch {P} (samples : list Sample) (preds : list P)
  : result (list (list (option span))) :=
  mapM (fun '(sample, _) => word_spans_of sample) (combine samples preds).


(** [logits_to_preds]:
<<
    preds_tokens = torch.argmax(logits, dim=2)
    for idx, im in enumerate(initial_mask):
        preds_t = preds_token[idx]
        preds_word_id = self.initial_token_only(preds_t, initial_mask=im)
        preds_word = [label_map[pwi] for pwi in preds_word_id]
        preds_word_all.append(preds_word)
>>
    [logits] is given sample by sample and position by position. *)
Definition logits_to_preds (logits : list (list (list Q)))
    (initial_mask : list (list bool)) (label_map : Z -> result string)
  : result (list (list string)) :=
  preds_token ← mapM torch_argmax_dim1 logits;
  mapM (fun '(idx, im) =>
          preds_t ← getitem preds_token (Z.of_nat idx);
          mapM label_map (initial_token_only preds_t im))
       (enumerate initial_mask).

(** [logits_to_probs]:
<<
    token_probs = softmax(logits)
    token_probs = torch.max(token_probs, dim=2)[0]
    for idx, im in enumerate(initial_mask):
        probs_t = token_probs[idx]
        probs_words = self.initial_token_only(probs_t, initial_mask=im)
        all_probs.append(probs_words)
>> *)
Definition logits_to_probs (logits : list (list (list Q)))
    (initial_mask : list (list bool)) : result (list (list R)) :=
  token_probs ← mapM (mapM Torch.max_prob) logits;
  mapM (fun '(idx, im) =>
          probs_t ← getitem token_probs (Z.of_nat idx);
          Ok (initial_token_only probs_t im))
       (enumerate initial_mask).

(** [prepare_labels]:
<<
    for label_ids_one_sample, initial_mask_one_sample in zip(
        label_ids, initial_mask):
        label_ids = self.initial_token_only(
            label_ids_one_sample, initial_mask_one_sample)
        labels = [label_map[l] for l in label_ids]
        labels_all.append(labels)
>> *)
Definition prepare_labels (label_map : Z -> result string)
    (label_ids : list (list Z)) (initial_mask : list (list bool))
  : result (list (list string)) :=
  mapM (fun '(label_ids_one_sample, initial_mask_one_sample) =>
          mapM label_map
            (initial_token_only label_ids_one_sample initial_mask_one_sample))
       (combine label_ids initial_mask).

End TokenClassificationHead.

(** ** BertLMHead *)

Module BertLMHead.

(** The head: [num_labels] is the size of the vocabulary, [config] what
    [generate_config] collected. *)
Record t : Type := { num_labels : Z; config : config_t }.

(** [CrossEntropyLoss(reduction="none", ignore_index=-1)] *)
Definition loss_fct : Torch.CrossEntropyLoss :=
  {| Torch.weight := None; Torch.ignore_index := -1;
     Torch.loss_reduction := Torch.ReductionNone |}.

(** [save]:
<<
    logger.warning("The weights of BertLMHead are not saved")
    self.save_config(save_dir, head_num)
>> *)
Definition save (self : t) (save_dir : string) (head_num : Z) (w : world)
  : world :=
  let w := logger_warning "The weights of BertLMHead are not saved" w in
  PredictionHead.save_config (config self) save_dir head_num w.

(** [load(cls, model_file, config_file)] *)
Definition load (model_file config_file : string) : result t :=
  Raise (NotImplementedError "BertLMHead does not currently support loading").

(** [logits_to_loss]:
<<
    batch_size = lm_label_ids.shape[0]
    masked_lm_loss = self.loss_fct(
        logits.view(-1, self.num_labels), lm_label_ids.view(-1))
    per_sample_loss = masked_lm_loss.view(-1, batch_size).mean(dim=0)
>> *)
Definition logits_to_loss (self : t) (logits lm_label_ids : Torch.tensor)
  : Torch.M (list R) :=
  batch_size ← Torch.lift (Torch.size lm_label_ids 0);
  lv ← Torch.lift (Torch.view_rows_z logits (num_labels self));
  l ← Torch.loss_fct loss_fct lv (Torch.view_flat lm_label_ids);
  let masked_lm_loss := match l with
                        | Torch.Vector v => v
                        | Torch.Scalar x => [x]
                        end in
  rows ← Torch.lift (Torch.view_rows_values masked_lm_loss batch_size);
  mret (Torch.mean_dim0 batch_size rows).

(** The per-sample loss in the words of the specification: the flat
    per-position losses of labels of shape [batch, seq_len] are taken
    sample by sample, and each sample's [seq_len] losses are averaged. *)
Definition per_sample_average_spec (batch seq_len : nat) (flat : list R)
  : list R :=
  map (fun row => (Torch.Rsum row / INR seq_len)%R)
      (Torch.rows_of batch seq_len flat).


(** Arrays of [logits_to_preds] and [prepare_labels]: logits of shape
    [batch, seq_len, vocab] and label ids of shape [batch, seq_len], with
    their flat row-major data. *)
Record logits_array : Type := {
  logits_shape : nat * nat * nat;
  logits_data : list Q
}.

Record labels_array : Type := {
  labels_shape : nat * nat;
  labels_data : list Z
}.

(** The words of one sequence:
    [[label_map[int(x)] for x in ids if int(x) != -1]] *)
Definition words_of (label_map : Z -> result string) (ids : list Z)
  : result (list string) :=
  mapM label_map (List.filter (fun x => negb (x =? -1)) ids).

(** [logits_to_preds]:
<<
    lm_preds_ids = logits.argmax(2)
    assert lm_preds_ids.shape == lm_label_ids.shape
    lm_preds_ids[lm_label_ids == -1] = -1
    lm_preds_ids = lm_preds_ids.tolist()
    for pred_ids_for_sequence in lm_preds_ids:
        preds.append(
            [label_map[int(x)] for x in pred_ids_for_sequence if int(x) != -1])
>> *)
Definition logits_to_preds (logits : logits_array)
    (label_map : Z -> result string) (lm_label_ids : labels_array)
  : checked (list (list string)) :=
  let '(b, s, v) := logits_shape logits in
  match mapM np_argmax (Torch.rows_of (b * s) v (logits_data logits)) with
  | Raise e => Passed (Raise e)
  | Ok lm_preds_ids =>
      let '(b', s') := labels_shape lm_label_ids in
      if Nat.eqb b b' && Nat.eqb s s' then
        let masked :=
          map2 (fun p l => if l =? -1 then -1 else p)
               lm_preds_ids (labels_data lm_label_ids) in
        Passed (mapM (words_of label_map) (Torch.rows_of b s masked))
      else AssertionError
  end.

(** [prepare_labels]:
<<
    label_ids = lm_label_ids.cpu().numpy().tolist()
    for ids_for_sequence in label_ids:
        labels.append([label_map[int(x)] for x in ids_for_sequence if int(x) != -1])
>> *)
Definition prepare_labels (label_map : Z -> result string)
    (lm_label_ids : labels_array) : result (list (list string)) :=
  let '(b, s) := labels_shape lm_label_ids in
  mapM (words_of label_map) (Torch.rows_of b s (labels_data lm_label_ids)).

End BertLMHead.

(** ** QuestionAnsweringHead *)

Module QuestionAnsweringHead.

(** The prediction record [pred] of [formatted_preds]. *)
Record pred_t : Type := {
  pred_start : Z;
  pred_end : Z;
  pred_context : string;
  pred_label : string;
  pred_probability : string
}.

(** The dictionary [result] of [formatted_preds]. *)
Record formatted_t : Type := {
  task : string;
  predictions : list pred_t
}.

(** [logits_to_preds]:
<<
    (start_logits, end_logits) = logits
    start_idx = torch.argmax(start_logits, dim=1)
    end_idx = torch.argmax(end_logits, dim=1)
    return (start_idx, end_idx)
>> *)
Definition logits_to_preds (logits : list (list Q) * list (list Q))
  : result (list Z * list Z) :=
  let '(start_logits, end_logits) := logits in
  start_idx ← torch_argmax_dim1 start_logits;
  end_idx ← torch_argmax_dim1 end_logits;
  Ok (start_idx, end_idx).

(** [logits_to_loss]:
<<
    (start_logits, end_logits) = logits
    if len(start_position.size()) > 1:
        start_position = start_position.squeeze(-1)
    if len(end_position.size()) > 1:
        end_position = end_position.squeeze(-1)
    ignored_index = start_logits.size(1)
    start_position.clamp_(0, ignored_index)
    end_position.clamp_(0, ignored_index)
    loss_fct = CrossEntropyLoss(ignore_index=ignored_index, reduction="none")
    start_loss = loss_fct(start_logits, start_position)
    end_loss = loss_fct(end_logits, end_position)
    per_sample_loss = (start_loss + end_loss) / 2
>>
    The squeezed position is a view, so [clamp_] writes into the
    caller's tensor. *)
Definition squeeze_position (position : Torch.tensor) : Torch.tensor :=
  if (1 <? length (Torch.shape position))%nat
  then Torch.squeeze_last position else position.

Definition loss_values (l : Torch.loss_t) : list R :=
  match l with
  | Torch.Vector v => v
  | Torch.Scalar x => [x]
  end.

Definition logits_to_loss (logits : Torch.tensor * Torch.tensor)
    (start_position end_position : Torch.tensor) : Torch.M (list R) :=
  let '(start_logits, end_logits) := logits in
  let start_position := squeeze_position start_position in
  let end_position := squeeze_position end_position in
  ignored_index ← Torch.lift (Torch.size start_logits 1);
  Torch.clamp_ start_position 0 (Z.of_nat ignored_index);;
  Torch.clamp_ end_position 0 (Z.of_nat ignored_index);;
  let loss_fct :=
    {| Torch.weight := None; Torch.ignore_index := Z.of_nat ignored_index;
       Torch.loss_reduction := Torch.ReductionNone |} in
  start_loss ← Torch.loss_fct loss_fct start_logits start_position;
  end_loss ← Torch.loss_fct loss_fct end_logits end_position;
  Torch.lift (Torch.half_sum (loss_values start_loss) (loss_values end_loss)).

(** [shifts = np.argmax(segment_ids > 0, axis=1)] *)
Definition shifts_of (segment_ids : list (list Z)) : result (list Z) :=
  np_argmax_bool_axis1 (map (map (fun z => 0 <? z)) segment_ids).

(** [idx = idx - shifts; idx[idx < 0] = 0] *)
Definition shift_clamp (idx shifts : list Z) : result (list Z) :=
  idx' ← np_sub idx shifts;
  Ok (np_clamp_negative idx').

(** Lines 566 to 571: the indices that the loop over the samples uses.
<<
    shifts = np.argmax(segment_ids > 0, axis=1)
    start_idx = start_idx - shifts
    start_idx[start_idx < 0] = 0
    end_idx = end_idx - shifts
    end_idx[end_idx < 0] = 0
    end_idx = end_idx + 1  # slicing up to and including end
>> *)
Definition shift_indices (start_idx end_idx : list Z)
    (segment_ids : list (list Z)) : result (list Z * list Z) :=
  shifts ← shifts_of segment_ids;
  start_idx' ← shift_clamp start_idx shifts;
  end_idx' ← shift_clamp end_idx shifts;
  Ok (start_idx', np_add_scalar end_idx' 1).

(** The answer string of a sample:
<<
    answer = " ".join(sample.tokenized["tokens"][start_idx[i]: end_idx[i]])
    answer = answer.replace(" ##", "")
    answer = answer.replace("##", "")
>> *)
Definition answer_of (toks : list string) (s e : Z) : string :=
  let answer := str_join " " (slice toks s e) in
  let answer := str_replace answer " ##" "" in
  str_replace answer "##" "".

(** The body of [for i, sample in enumerate(samples)].  The string
    [answer_dugging] is computed from [pred] and never used; slicing
    does not raise. *)
Definition format_sample (start_idx end_idx : list Z) (x : nat * Sample)
  : result pred_t :=
  let '(i, sample) := x in
  s ← getitem start_idx (Z.of_nat i);
  e ← getitem end_idx (Z.of_nat i);
  let answer := answer_of (tokens (tokenized sample)) s e in
  let question := question_text (clear_text sample) in
  p_start ← getitem (offsets (tokenized sample)) s;
  p_end ← getitem (offsets (tokenized sample)) e;
  Ok {| pred_start := p_start;
        pred_end := p_end;
        pred_context := question;
        pred_label := answer;
        pred_probability := "unkown" |}.

(** [formatted_preds(logits, samples, segment_ids)] *)
Definition formatted_preds (logits : list (list Q) * list (list Q))
    (samples : list Sample) (segment_ids : list (list Z))
  : result formatted_t :=
  '(start_idx, end_idx) ← logits_to_preds logits;
  '(start_idx, end_idx) ← shift_indices start_idx end_idx segment_ids;
  all_preds ← mapM (format_sample start_idx end_idx) (enumerate samples);
  Ok {| task := "qa"; predictions := all_preds |}.


(** The head: [num_labels = layer_dims[-1]]. *)
Record t : Type := { layer_dims : list Z; num_labels : Z }.

Definition init (layer_dims : list Z) : result t :=
  n ← getitem layer_dims (-1);
  Ok {| layer_dims := layer_dims; num_labels := n |}.

(** [prepare_labels]: [return (start_position, end_position)] *)
Definition prepare_labels {T} (start_position end_position : T) : T * T :=
  (start_position, end_position).

End QuestionAnsweringHead.

(** ** The registry of heads

    [__init_subclass__] files every subclass of [PredictionHead] under
    its class name; these are the four heads of this file. *)

Inductive head : Type :=
| TextClassification (h : TextClassificationHead.t)
| TokenClassification (h : TokenClassificationHead.t)
| BertLM (h : BertLMHead.t)
| QuestionAnswering (h : QuestionAnsweringHead.t).


(** The constructors as [create] calls them, with the keywords
    [layer_dims] and [class_weights] only.  [BertLMHead.__init__] has the
    required parameters [embeddings] and [hidden_size], so this call
    raises [TypeError]; the token and question answering heads take
    [class_weights] into their [**kwargs]. *)
Definition constructor : Type := list Z -> option (list Q) -> result head.





(** [str(n)] read back. *)
Definition int_of_str (s : string) : option Z :=
  option_map Z.of_int (NilZero.int_of_string s).

(** A sample given by its tokenized arrays. *)
Definition tokenized_sample (ct : clear_text_t) (toks : list string)
    (offs : list Z) (flags : list bool) : Sample :=
  {| clear_text := ct;
     tokenized := {| tokens := toks; offsets := offs; start_of_word := flags |} |}.

Definition no_text : clear_text_t :=
  {| text := ""; question_text := ""; doc_tokens := [] |}.

(** The flag and the offset of a zipped (token, offset, flag) triple. *)
Definition is_start (x : string * Z * bool) : bool := snd x.
Definition offset_of (x : string * Z * bool) : Z := snd (fst x).

(** A question answering batch of one sample: three question positions
    followed by four context positions; the start logits peak at
    position 4 and the end logits at position 5. *)
Definition qa_example_logits : list (list Q) * list (list Q) :=
  ([[0; 1 # 2; 0; 0; 3; 1; 0]], [[0; 1 # 2; 0; 0; 3; 7 # 2; 0]])%Q.

Definition qa_example_segments : list (list Z) := [[0; 0; 0; 1; 1; 1; 1]].

Definition qa_example_sample : Sample :=
  tokenized_sample
    {| text := ""; question_text := "Who sat?";
       doc_tokens := ["The"; "cat"; "sat"; "down"; "now"; "."] |}
    ["The"; "ca"; "##t"; "sat"; "down"; "now"; "."]
    [0; 4; 6; 8; 12; 17; 20] [].

(** What [formatted_preds] returns on this batch. *)
Definition qa_example_result : QuestionAnsweringHead.formatted_t :=
  {| QuestionAnsweringHead.task := "qa";
     QuestionAnsweringHead.predictions :=
       [{| QuestionAnsweringHead.pred_start := 4;
           QuestionAnsweringHead.pred_end := 8;
           QuestionAnsweringHead.pred_context := "Who sat?";
           QuestionAnsweringHead.pred_label := "cat";
           QuestionAnsweringHead.pred_probability := "unkown" |}] |}.

(** The same batch with a context of three tokens only: the shifted end
    index 2 is the last index of the offset table. *)
Definition qa_short_sample : Sample :=
  tokenized_sample
    {| text := ""; question_text := "Who sat?";
       doc_tokens := ["The"; "cat"; "sat"] |}
    ["The"; "cat"; "sat"] [0; 4; 8] [].

(** A question answering batch of one sample of length 2 in the store:
    start and end logits at 0 and 1, the start position 5 at 2 and the
    end position -3 at 3, both outside [0, 2]. *)
Definition qa_loss_store : gmap nat Torch.storage :=
  <[0%nat := Torch.FloatStorage [0; 0]%Q]>
    (<[1%nat := Torch.FloatStorage [0; 0]%Q]>
       (<[2%nat := Torch.IntStorage [5]]>
          (<[3%nat := Torch.IntStorage [-3]]> ∅))).

Definition qa_loss_logits : Torch.tensor * Torch.tensor :=
  ({| Torch.data_ptr := 0; Torch.shape := [1; 2]%nat |},
   {| Torch.data_ptr := 1; Torch.shape := [1; 2]%nat |}).

Definition qa_loss_start_position : Torch.tensor :=
  {| Torch.data_ptr := 2; Torch.shape := [1]%nat |}.

Definition qa_loss_end_position : Torch.tensor :=
  {| Torch.data_ptr := 3; Torch.shape := [1; 1]%nat |}.

(** A text classification batch of two samples and two classes: logits
    at 0, labels 1 and 0 at 1. *)
Definition text_loss_store : gmap nat Torch.storage :=
  <[0%nat := Torch.FloatStorage [0; 1; 2; 0]%Q]>
    (<[1%nat := Torch.IntStorage [1; 0]]> ∅).

Definition text_loss_logits : Torch.tensor :=
  {| Torch.data_ptr := 0; Torch.shape := [2; 2]%nat |}.

Definition text_loss_labels : Torch.tensor :=
  {| Torch.data_ptr := 1; Torch.shape := [2; 1]%nat |}.

Definition text_head : TextClassificationHead.t :=
  {| TextClassificationHead.layer_dims := [768; 2];
     TextClassificationHead.num_labels := 2;
     TextClassificationHead.class_weights := None;
     TextClassificationHead.loss_fct :=
       {| Torch.weight := None; Torch.ignore_index := -100;
          Torch.loss_reduction := Torch.ReductionNone |} |}.

(** A masked-token batch of two samples of two positions over a
    vocabulary of two tokens: all logits are zero, and only the second
    position of the first sample carries a label. *)
Definition lm_store : gmap nat Torch.storage :=
  <[0%nat := Torch.FloatStorage [0; 0; 0; 0; 0; 0; 0; 0]%Q]>
    (<[1%nat := Torch.IntStorage [-1; 0; -1; -1]]> ∅).

Definition lm_logits : Torch.tensor :=
  {| Torch.data_ptr := 0; Torch.shape := [2; 2; 2]%nat |}.

Definition lm_label_ids : Torch.tensor :=
  {| Torch.data_ptr := 1; Torch.shape := [2; 2]%nat |}.

Definition lm_head : BertLMHead.t :=
  {| BertLMHead.num_labels := 2; BertLMHead.config := [] |}.

(** A directory that already holds the weights of head 0. *)
Definition saved_world : world :=
  {| files := <["out/prediction_head_0.bin" := TorchFile []]> ∅; log := [] |}.

(** A token classification batch of one sample of three positions and
    two labels: logits at 0, label ids at 1, and at 2 a padding mask
    with two real tokens. *)
Definition token_loss_store : gmap nat Torch.storage :=
  <[0%nat := Torch.FloatStorage [0; 1; 2; 0; 0; 0]%Q]>
    (<[1%nat := Torch.IntStorage [1; 0; 0]]>
       (<[2%nat := Torch.IntStorage [1; 1; 0]]> ∅)).

Definition token_loss_logits : Torch.tensor :=
  {| Torch.data_ptr := 0; Torch.shape := [1; 3; 2]%nat |}.

Definition token_loss_labels : Torch.tensor :=
  {| Torch.data_ptr := 1; Torch.shape := [1; 3]%nat |}.

Definition token_padding_mask : Torch.tensor :=
  {| Torch.data_ptr := 2; Torch.shape := [1; 3]%nat |}.

Definition token_head : TokenClassificationHead.t :=
  {| TokenClassificationHead.layer_dims := [768; 2];
     TokenClassificationHead.num_labels := 2 |}.

(** [k] is the index of the first largest entry of [row]. *)
Definition first_max (row : list Q) (k : Z) : Prop :=
  exists m,
    0 <= k
    /\ nth_error row (Z.to_nat k) = Some m
    /\ (forall j y, nth_error row j = Some y -> Qle y m)
    /\ (forall j y, (j < Z.to_nat k)%nat -> nth_error row j = Some y -> Qlt y m).

(** A label map of two tags, as the [__getitem__] of a dictionary, and
    a tagging batch of one sample of three tokens, the second of which
    continues the first word. *)
Definition ner_label_map (k : Z) : result string :=
  match k with
  | 0 => Ok "O"
  | 1 => Ok "B-PER"
  | _ => Raise KeyError
  end.

Definition ner_logits : list (list (list Q)) :=
  [[[0; 1]; [1; 0]; [0; 2]]]%Q.

Definition ner_initial_mask : list (list bool) := [[true; false; true]].

Definition ner_label_ids : list (list Z) := [[1; 0; 1]].

(** A masked-token batch of one sequence of three positions over a
    vocabulary of two words; only the middle position is masked. *)
Definition lm_vocab (k : Z) : result string :=
  match k with
  | 0 => Ok "cat"
  | 1 => Ok "dog"
  | _ => Raise KeyError
  end.

Definition lm_preds_logits : BertLMHead.logits_array :=
  {| BertLMHead.logits_shape := (1, 3, 2)%nat;
     BertLMHead.logits_data := [1; 0; 0; 1; 1; 0]%Q |}.

Definition lm_preds_labels : BertLMHead.labels_array :=
  {| BertLMHead.labels_shape := (1, 3)%nat;
     BertLMHead.labels_data := [-1; 0; -1] |}.
(** ** Word-initial filtering *)

Section InitialTokenOnly.
Context {A : Type}.
Import TokenClassificationHead.

Lemma initial_token_only_acc (ps : list (bool * A)) (acc : list A) :
  fold_left (fun ret '(init, s) => if (init : bool) then ret ++ [s] else ret)
            ps acc
  = acc ++ map snd (List.filter fst ps).
Proof.
  revert acc; induction ps as [|[init s] ps IH]; intros acc; simpl.
  - now rewrite app_nil_r.
  - destruct init; simpl; rewrite IH; [now rewrite <- app_assoc|reflexivity].
Qed.

Lemma initial_token_only_filter (seq : list A) (mask : list bool) :
  initial_token_only seq mask = map snd (List.filter fst (combine mask seq)).
Proof. unfold initial_token_only. apply (initial_token_only_acc _ []). Qed.

Lemma initial_token_only_cons (s : A) (seq : list A) b (mask : list bool) :
  initial_token_only (s :: seq) (b :: mask) =
  if b then s :: initial_token_only seq mask else initial_token_only seq mask.
Proof. rewrite !initial_token_only_filter; simpl. now destruct b. Qed.

Lemma true_positions_cons b (mask : list bool) :
  true_positions (b :: mask) =
  if b then O :: map S (true_positions mask) else map S (true_positions mask).
Proof.
  unfold true_positions.
  change (seq 0 (length (b :: mask))) with (0%nat :: seq 1 (length mask)).
  rewrite <- seq_shift.
  change (List.filter ?f (?x :: ?l))
    with (if f x then x :: List.filter f l else List.filter f l).
  rewrite filter_map_swap. now destruct b.
Qed.

Lemma true_positions_spec (mask : list bool) (i : nat) :
  In i (true_positions mask) <-> nth_error mask i = Some true.
Proof.
  unfold true_positions. rewrite filter_In, in_seq. split.
  - intros [[_ Hlt] Hn]. simpl in Hlt.
    destruct (nth_error mask i) as [b|] eqn:E.
    + erewrite nth_error_nth in Hn by exact E. now subst.
    + apply nth_error_None in E. lia.
  - intros E. split.
    + assert (nth_error mask i <> None) as H%nth_error_Some by congruence. lia.
    + now erewrite nth_error_nth by exact E.
Qed.

Lemma true_positions_sorted (mask : list bool) :
  StronglySorted lt (true_positions mask).
Proof.
  assert (M : forall l, StronglySorted lt l -> StronglySorted lt (map S l)).
  { induction 1 as [|x l Hs IH Hx]; simpl; constructor; [exact IH|].
    rewrite Forall_map. eapply List.Forall_impl; [|exact Hx]. simpl; lia. }
  induction mask as [|b mask IH]; [constructor|].
  rewrite true_positions_cons. destruct b; [constructor|]; auto.
  rewrite Forall_map. apply Forall_forall. lia.
Qed.

End InitialTokenOnly.

(** C4. For a sequence and a mask of the same length,
    [initial_token_only] returns the elements at the positions where
    the mask is true and no others, in their original order; the length
    of the result is the number of true flags; and [a,b,c,d,e] under
    [true,false,true,true,false] gives [a,c,d]. *)
Theorem initial_token_only_subsequence {A : Type} (d : A)
    (seq : list A) (mask : list bool) :
  length seq = length mask ->
  TokenClassificationHead.initial_token_only seq mask
    = map (fun i => nth i seq d) (TokenClassificationHead.true_positions mask)
  /\ (forall i, In i (TokenClassificationHead.true_positions mask)
                <-> nth_error mask i = Some true)
  /\ StronglySorted lt (TokenClassificationHead.true_positions mask)
  /\ length (TokenClassificationHead.initial_token_only seq mask)
     = count_occ bool_dec mask true
  /\ (forall a b c d' e : A,
        TokenClassificationHead.initial_token_only
          [a; b; c; d'; e] [true; false; true; true; false] = [a; c; d']).
Proof.
  intros Hlen.
  split; [|split; [apply true_positions_spec|split; [apply true_positions_sorted|split]]].
  - revert mask Hlen; induction seq as [|s seq IH]; intros [|b mask] Hlen;
      try discriminate; [reflexivity|].
    rewrite initial_token_only_cons, true_positions_cons, IH by (simpl in Hlen; lia).
    destruct b; simpl; rewrite map_map; reflexivity.
  - revert mask Hlen; induction seq as [|s seq IH]; intros [|b mask] Hlen;
      try discriminate; [reflexivity|].
    rewrite initial_token_only_cons. specialize (IH mask ltac:(simpl in Hlen; lia)).
    destruct b; simpl; rewrite IH; reflexivity.
  - reflexivity.
Qed.

Lemma initial_token_only_subsequence_witness :
  TokenClassificationHead.initial_token_only [10; 20; 30] [false; true; true]
  = [20; 30].
Proof.
  destruct (initial_token_only_subsequence 0 [10; 20; 30] [false; true; true]
              eq_refl) as [E _].
  rewrite E. reflexivity.
Defined.


(** ** Span reconstruction *)

Section SpanReconstruction.
Import TokenClassificationHead.

Lemma span_loop_started rest : forall ws cur,
  (foldM span_step rest (ws, Some cur)
     ≫= fun '(word_spans, span) => Ok (word_spans ++ [span]))
  = Ok (ws ++ map Some (spans_from cur rest)).
Proof.
  induction rest as [|[[token offset] [|]] rest IH]; intros ws cur.
  - reflexivity.
  - cbn [foldM span_step bind spans_from]. rewrite IH.
    now rewrite <- app_assoc.
  - cbn [foldM span_step bind spans_from]. now rewrite IH.
Qed.

Lemma spans_from_length rest : forall cur,
  length (spans_from cur rest) = S (length (List.filter is_start rest)).
Proof.
  induction rest as [|[[token offset] [|]] rest IH]; intros cur; simpl;
    [reflexivity| now rewrite IH | now rewrite IH].
Qed.

Lemma spans_from_starts rest : forall cur,
  map span_start (spans_from cur rest)
  = span_start cur :: map offset_of (List.filter is_start rest).
Proof.
  induction rest as [|[[token offset] [|]] rest IH]; intros cur; simpl;
    [reflexivity| now rewrite IH | now rewrite IH].
Qed.

End SpanReconstruction.

(** C5 (as stated, refuted). On tokens ["Jo","##hn","Smith"], offsets
    [0,2,8] and flags [true,false,true] the reconstruction does not give
    the spans [{0,7}, {8,13}]. *)
Lemma span_reconstruction_example_not_0_7 :
  TokenClassificationHead.word_spans_of
    (tokenized_sample no_text ["Jo"; "##hn"; "Smith"] [0; 2; 8]
       [true; false; true])
  <> Ok [Some {| span_start := 0; span_end := 7 |};
         Some {| span_start := 8; span_end := 13 |}].
Proof. vm_compute. discriminate. Qed.

(** C5 (amended). On tokens ["Jo","##hn","Smith"], offsets [0,2,8] and
    flags [true,false,true] the reconstruction gives the spans
    [{0,4}, {8,13}]: the continuation "##hn" at offset 2 moves the end
    of the first span to 2 + len("hn") = 4. *)
Theorem span_reconstruction_example :
  TokenClassificationHead.word_spans_of
    (tokenized_sample no_text ["Jo"; "##hn"; "Smith"] [0; 2; 8]
       [true; false; true])
  = Ok [Some {| span_start := 0; span_end := 4 |};
        Some {| span_start := 8; span_end := 13 |}].
Proof. reflexivity. Qed.

(** C10. When the three tokenized arrays are non-empty and the first
    word-initial flag is true, the reconstruction returns proper span
    records only, one per word-initial token, whose starts are the
    offsets of the word-initial tokens in token order.  When the first
    flag is false it raises (the span to extend is [None]), and for a
    sample without tokens it returns the single entry [None]. *)
Theorem word_spans_first_flag :
  (forall ct t ts o os fs,
      let triples := zip3 (t :: ts) (o :: os) (true :: fs) in
      exists spans : list span,
        TokenClassificationHead.word_spans_of
          (tokenized_sample ct (t :: ts) (o :: os) (true :: fs))
        = Ok (map Some spans)
        /\ spans = TokenClassificationHead.spans_from
                     {| span_start := o; span_end := o + len t |}
                     (zip3 ts os fs)
        /\ length spans = length (List.filter is_start triples)
        /\ map span_start spans = map offset_of (List.filter is_start triples))
  /\ (forall ct t ts o os fs,
        TokenClassificationHead.word_spans_of
          (tokenized_sample ct (t :: ts) (o :: os) (false :: fs))
        = Raise TypeError)
  /\ (forall ct,
        TokenClassificationHead.word_spans_of (tokenized_sample ct [] [] [])
        = Ok [None]).
Proof.
  split; [|split].
  - intros ct t ts o os fs triples. eexists. split; [|split; [reflexivity|split]].
    + unfold TokenClassificationHead.word_spans_of, tokenized_sample; simpl.
      apply (span_loop_started (zip3 ts os fs) []).
    + now rewrite spans_from_length.
    + now rewrite spans_from_starts.
  - reflexivity.
  - reflexivity.
Qed.

(** ** The error monad and the list primitives *)

Section Primitives.
Context {A B : Type}.

Lemma bind_ok (m : result A) (k : A -> result B) (b : B) :
  m ≫= k = Ok b -> exists a, m = Ok a /\ k a = Ok b.
Proof. destruct m as [a|e]; [eauto|discriminate]. Qed.

Lemma mapM_ok (f : A -> result B) (xs : list A) (ys : list B) :
  mapM f xs = Ok ys ->
  length ys = length xs
  /\ forall i x, nth_error xs i = Some x ->
                 exists y, nth_error ys i = Some y /\ f x = Ok y.
Proof.
  revert ys; induction xs as [|x xs IH]; intros ys H; simpl in H.
  - injection H as <-. split; [reflexivity|]. intros [|i] x0; discriminate.
  - destruct (f x) as [y|e] eqn:Ef; [|discriminate]. simpl in H.
    destruct (mapM f xs) as [ys'|e]; [|discriminate]. simpl in H.
    injection H as <-. destruct (IH ys' eq_refl) as [Hl Hn].
    split; [simpl; now rewrite Hl|].
    intros [|i] x0 Hx; simpl in *; [injection Hx as <-; eauto|auto].
Qed.

Lemma mapM_all_ok (f : A -> result B) (xs : list A) :
  (forall x, In x xs -> exists y, f x = Ok y) -> exists ys, mapM f xs = Ok ys.
Proof.
  induction xs as [|x xs IH]; intros H; simpl; [eauto|].
  destruct (H x (or_introl eq_refl)) as [y ->].
  destruct IH as [ys ->]; [intros; apply H; now right|]. simpl; eauto.
Qed.

Lemma mapM_raise (f : A -> result B) (xs : list A) (err : exn) (x : A) :
  (forall x' e, f x' = Raise e -> e = err) ->
  In x xs -> f x = Raise err -> mapM f xs = Raise err.
Proof.
  intros Hall. induction xs as [|x' xs IH]; intros Hin Hx; [destruct Hin|].
  simpl. destruct (f x') as [y|e] eqn:Ef.
  - destruct Hin as [->|Hin]; [congruence|]. rewrite IH by assumption.
    reflexivity.
  - now rewrite (Hall _ _ Ef).
Qed.

Lemma enumerate_nth (xs : list A) (i : nat) (x : A) :
  nth_error xs i = Some x -> nth_error (enumerate xs) i = Some (i, x).
Proof.
  unfold enumerate. change (i, x) with ((0 + i)%nat, x).
  generalize 0%nat as k. revert i.
  induction xs as [|y xs IH]; intros [|i] k H; try discriminate; simpl in *.
  - injection H as ->. now rewrite Nat.add_0_r.
  - rewrite (IH i (S k) H). f_equal. f_equal. lia.
Qed.

Lemma enumerate_nth_inv (xs : list A) (i j : nat) (x : A) :
  nth_error (enumerate xs) i = Some (j, x) -> j = i /\ nth_error xs i = Some x.
Proof.
  intros H. destruct (nth_error xs i) as [y|] eqn:E.
  - rewrite (enumerate_nth _ _ _ E) in H. now injection H as <- <-.
  - apply nth_error_None in E.
    assert (nth_error (enumerate xs) i = None) as H'.
    { apply nth_error_None. unfold enumerate.
      rewrite length_combine, length_seq. lia. }
    congruence.
Qed.

Lemma getitem_nat (xs : list A) (i : nat) (x : A) :
  getitem xs (Z.of_nat i) = Ok x <-> nth_error xs i = Some x.
Proof.
  unfold getitem. destruct (Z.ltb_spec (Z.of_nat i) 0) as [?|_]; [lia|].
  rewrite Nat2Z.id.
  destruct (Z.ltb_spec (Z.of_nat i) 0) as [?|_]; [lia|]. simpl.
  destruct (Z.leb_spec (Z.of_nat (length xs)) (Z.of_nat i)) as [Hge|Hlt].
  - split; [discriminate|]. intros H.
    assert (nth_error xs i <> None) as H'%nth_error_Some by congruence. lia.
  - destruct (nth_error xs i); split; congruence.
Qed.

Lemma getitem_raises (xs : list A) (i : Z) (e : exn) :
  getitem xs i = Raise e -> e = IndexError.
Proof.
  unfold getitem.
  destruct (_ || _); [congruence|]. destruct (nth_error _ _); congruence.
Qed.

Lemma getitem_past_end (xs : list A) :
  getitem xs (Z.of_nat (length xs)) = Raise IndexError.
Proof.
  destruct (getitem xs (Z.of_nat (length xs))) as [x|e] eqn:E.
  - apply getitem_nat in E.
    assert (nth_error xs (length xs) <> None) as H%nth_error_Some by congruence.
    lia.
  - now rewrite (getitem_raises _ _ _ E).
Qed.

End Primitives.

(** ** QuestionAnsweringHead.formatted_preds *)

Section QAFormattedPreds.
Import QuestionAnsweringHead.

Lemma formatted_preds_steps logits samples segs raw_s raw_e sh_s sh_e :
  logits_to_preds logits = Ok (raw_s, raw_e) ->
  shift_indices raw_s raw_e segs = Ok (sh_s, sh_e) ->
  formatted_preds logits samples segs
  = (mapM (format_sample sh_s sh_e) (enumerate samples)
       ≫= fun all_preds => Ok {| task := "qa"; predictions := all_preds |}).
Proof.
  intros H1 H2. unfold formatted_preds. rewrite H1. cbn. rewrite H2.
  reflexivity.
Qed.

Lemma format_sample_ok sh_s sh_e i sample p :
  format_sample sh_s sh_e (i, sample) = Ok p ->
  exists s e,
    nth_error sh_s i = Some s /\ nth_error sh_e i = Some e
    /\ getitem (offsets (tokenized sample)) s = Ok (pred_start p)
    /\ getitem (offsets (tokenized sample)) e = Ok (pred_end p)
    /\ pred_label p = answer_of (tokens (tokenized sample)) s e.
Proof.
  unfold format_sample. intros H.
  apply bind_ok in H as (s & Hs & H). apply bind_ok in H as (e & He & H).
  apply bind_ok in H as (ps & Hps & H). apply bind_ok in H as (pe & Hpe & H).
  injection H as <-. exists s, e. simpl.
  rewrite <- !getitem_nat. auto.
Qed.

Lemma format_sample_raises sh_s sh_e x err :
  format_sample sh_s sh_e x = Raise err -> err = IndexError.
Proof.
  destruct x as [i sample]. unfold format_sample.
  destruct (getitem sh_s _) as [s|e1] eqn:E1; cbn;
    [|intros [= <-]; exact (getitem_raises _ _ _ E1)].
  destruct (getitem sh_e _) as [e|e2] eqn:E2; cbn;
    [|intros [= <-]; exact (getitem_raises _ _ _ E2)].
  destruct (getitem _ s) as [ps|e3] eqn:E3; cbn;
    [|intros [= <-]; exact (getitem_raises _ _ _ E3)].
  destruct (getitem _ e) as [pe|e4] eqn:E4; cbn;
    [|intros [= <-]; exact (getitem_raises _ _ _ E4)].
  discriminate.
Qed.

Lemma shift_indices_steps raw_s raw_e segs sh_s sh_e :
  shift_indices raw_s raw_e segs = Ok (sh_s, sh_e) ->
  exists shifts ce,
    shifts_of segs = Ok shifts
    /\ shift_clamp raw_s shifts = Ok sh_s
    /\ shift_clamp raw_e shifts = Ok ce
    /\ sh_e = np_add_scalar ce 1.
Proof.
  unfold shift_indices. intros H.
  apply bind_ok in H as (shifts & Hsh & H).
  apply bind_ok in H as (s' & Hs & H). apply bind_ok in H as (ce & He & H).
  injection H as <- <-. eauto 10.
Qed.

Lemma wrap64_small z : - 2 ^ 63 <= z < 2 ^ 63 -> wrap64 z = z.
Proof. intros H. unfold wrap64. rewrite Z.mod_small; lia. Qed.

Lemma shift_clamp_nonneg idx shifts r :
  shift_clamp idx shifts = Ok r -> Forall (fun z => 0 <= z) r.
Proof.
  unfold shift_clamp. intros H. apply bind_ok in H as (d & _ & H).
  injection H as <-. unfold np_clamp_negative. rewrite Forall_map.
  apply Forall_forall. intros z _. destruct (Z.ltb_spec z 0); lia.
Qed.

Lemma shift_clamp_in_range idx : forall shifts,
  length idx = length shifts ->
  Forall (fun z => 0 <= z < 2 ^ 63) idx ->
  Forall (fun z => 0 <= z < 2 ^ 63) shifts ->
  shift_clamp idx shifts = Ok (map2 (fun a b => Z.max 0 (a - b)) idx shifts).
Proof.
  intros shifts Hlen Hi Hs. unfold shift_clamp, np_sub, broadcast2.
  rewrite Hlen, Nat.eqb_refl. cbn. f_equal.
  revert shifts Hlen Hs; induction Hi as [|a idx Ha Hi IH];
    intros [|b shifts] Hlen Hs; try discriminate; [reflexivity|].
  inversion Hs as [|? ? Hb Hs']; subst. simpl.
  rewrite wrap64_small by lia. f_equal; [|apply IH; auto].
  destruct (Z.ltb_spec (a - b) 0); lia.
Qed.

End QAFormattedPreds.

(** C2 (as stated, refuted). On the example batch the raw predicted
    indices are 4 and 5 and the offset table holds 12 and 17 there, but
    the record carries start 4 and end 8, the entries at the shifted
    start index 1 and at the shifted end index plus one, 3. *)
Lemma qa_offsets_not_from_raw_indices :
  QuestionAnsweringHead.logits_to_preds qa_example_logits = Ok ([4], [5])
  /\ getitem (offsets (tokenized qa_example_sample)) 4 = Ok 12
  /\ getitem (offsets (tokenized qa_example_sample)) 5 = Ok 17
  /\ exists p,
       QuestionAnsweringHead.formatted_preds
         qa_example_logits [qa_example_sample] qa_example_segments
       = Ok {| QuestionAnsweringHead.task := "qa";
               QuestionAnsweringHead.predictions := [p] |}
       /\ QuestionAnsweringHead.pred_start p = 4
       /\ QuestionAnsweringHead.pred_end p = 8
       /\ QuestionAnsweringHead.pred_start p <> 12
       /\ QuestionAnsweringHead.pred_end p <> 17
       /\ QuestionAnsweringHead.pred_label p = "cat".
Proof.
  repeat split; try reflexivity.
  eexists. repeat split; try (vm_compute; reflexivity); vm_compute; discriminate.
Qed.

(** C2 (amended). Whenever [formatted_preds] returns, the record of
    sample [i] takes its 'start' from the offset table at the shifted,
    clamped start index and its 'end' at the shifted, clamped end index
    plus one, and its answer string is built from the tokens between
    these same two indices. *)
Theorem qa_offsets_from_shifted_indices
    logits samples segs raw_s raw_e sh_s sh_e res :
  QuestionAnsweringHead.logits_to_preds logits = Ok (raw_s, raw_e) ->
  QuestionAnsweringHead.shift_indices raw_s raw_e segs = Ok (sh_s, sh_e) ->
  QuestionAnsweringHead.formatted_preds logits samples segs = Ok res ->
  length (QuestionAnsweringHead.predictions res) = length samples
  /\ forall i sample,
       nth_error samples i = Some sample ->
       exists p s e,
         nth_error (QuestionAnsweringHead.predictions res) i = Some p
         /\ nth_error sh_s i = Some s /\ nth_error sh_e i = Some e
         /\ getitem (offsets (tokenized sample)) s
            = Ok (QuestionAnsweringHead.pred_start p)
         /\ getitem (offsets (tokenized sample)) e
            = Ok (QuestionAnsweringHead.pred_end p)
         /\ QuestionAnsweringHead.pred_label p
            = QuestionAnsweringHead.answer_of (tokens (tokenized sample)) s e.
Proof.
  intros H1 H2 H. rewrite (formatted_preds_steps _ samples _ _ _ _ _ H1 H2) in H.
  apply bind_ok in H as (ps & Hps & H). injection H as <-. simpl.
  apply mapM_ok in Hps as [Hlen Hn]. split.
  - rewrite Hlen. unfold enumerate. rewrite length_combine, length_seq. lia.
  - intros i sample Hi. destruct (Hn _ _ (enumerate_nth _ _ _ Hi)) as (p & Hp & Hf).
    apply format_sample_ok in Hf as (s & e & ?). exists p, s, e. tauto.
Qed.

Lemma qa_offsets_from_shifted_indices_witness :
  QuestionAnsweringHead.formatted_preds
    qa_example_logits [qa_example_sample] qa_example_segments
  = Ok qa_example_result
  /\ exists p s e,
       nth_error (QuestionAnsweringHead.predictions qa_example_result) 0 = Some p
       /\ nth_error [1] 0 = Some s /\ nth_error [3] 0 = Some e
       /\ getitem (offsets (tokenized qa_example_sample)) s
          = Ok (QuestionAnsweringHead.pred_start p)
       /\ getitem (offsets (tokenized qa_example_sample)) e
          = Ok (QuestionAnsweringHead.pred_end p)
       /\ QuestionAnsweringHead.pred_label p
          = QuestionAnsweringHead.answer_of
              (tokens (tokenized qa_example_sample)) s e.
Proof.
  split; [reflexivity|].
  exact (proj2 (qa_offsets_from_shifted_indices
                  qa_example_logits [qa_example_sample] qa_example_segments
                  [4] [5] [1] [3] qa_example_result eq_refl eq_refl eq_refl)
               0%nat qa_example_sample eq_refl).
Defined.

(** C6. With segment markers [0,0,0,1,1,1,1] and raw predicted indices
    4 and 5 the shift is 3, the shifted start is 1, the shifted end is 2
    and the end index used for slicing is 3; whatever the input, no
    index is negative after the shift, and for indices and shifts in the
    non-negative [int64] range the shifted index is max(0, index - shift). *)
Theorem qa_shift_example_and_clamp :
  QuestionAnsweringHead.shifts_of [[0; 0; 0; 1; 1; 1; 1]] = Ok [3]
  /\ QuestionAnsweringHead.shift_clamp [4] [3] = Ok [1]
  /\ QuestionAnsweringHead.shift_clamp [5] [3] = Ok [2]
  /\ QuestionAnsweringHead.shift_indices [4] [5] [[0; 0; 0; 1; 1; 1; 1]]
     = Ok ([1], [3])
  /\ (forall idx shifts r,
        QuestionAnsweringHead.shift_clamp idx shifts = Ok r ->
        Forall (fun z => 0 <= z) r)
  /\ (forall idx shifts,
        length idx = length shifts ->
        Forall (fun z => 0 <= z < 2 ^ 63) idx ->
        Forall (fun z => 0 <= z < 2 ^ 63) shifts ->
        QuestionAnsweringHead.shift_clamp idx shifts
        = Ok (map2 (fun a b => Z.max 0 (a - b)) idx shifts)).
Proof.
  repeat (split; [reflexivity|]). split.
  - apply shift_clamp_nonneg.
  - apply shift_clamp_in_range.
Qed.

Lemma qa_shift_example_and_clamp_witness :
  Forall (fun z => 0 <= z) [0; 2]
  /\ QuestionAnsweringHead.shift_clamp [1; 7] [3; 5] = Ok [0; 2].
Proof.
  destruct qa_shift_example_and_clamp as (_ & _ & _ & _ & Hneg & Hmax).
  split.
  - apply (Hneg [1; 7] [3; 5]). reflexivity.
  - apply (Hmax [1; 7] [3; 5]); [reflexivity| |];
      repeat constructor; vm_compute; congruence.
Defined.

(** C9. The 'end' field of a record is read from the offset table at
    the clamped shifted end index plus one, one position past the last
    token of the answer; when the clamped shifted end index of a sample
    is the last index of its offset table this read is out of range and
    [formatted_preds] raises instead of returning, as it does on the
    example batch with a context of three tokens. *)
Theorem qa_end_offset_one_past_answer :
  (forall logits samples segs raw_s raw_e shifts ce res i sample c,
      QuestionAnsweringHead.logits_to_preds logits = Ok (raw_s, raw_e) ->
      QuestionAnsweringHead.shifts_of segs = Ok shifts ->
      QuestionAnsweringHead.shift_clamp raw_e shifts = Ok ce ->
      QuestionAnsweringHead.formatted_preds logits samples segs = Ok res ->
      nth_error samples i = Some sample ->
      nth_error ce i = Some c ->
      exists p,
        nth_error (QuestionAnsweringHead.predictions res) i = Some p
        /\ getitem (offsets (tokenized sample)) (wrap64 (c + 1))
           = Ok (QuestionAnsweringHead.pred_end p))
  /\ (forall logits samples segs raw_s raw_e sh_s shifts ce i sample c,
        QuestionAnsweringHead.logits_to_preds logits = Ok (raw_s, raw_e) ->
        QuestionAnsweringHead.shifts_of segs = Ok shifts ->
        QuestionAnsweringHead.shift_clamp raw_s shifts = Ok sh_s ->
        QuestionAnsweringHead.shift_clamp raw_e shifts = Ok ce ->
        nth_error samples i = Some sample ->
        nth_error ce i = Some c ->
        Z.of_nat (length (offsets (tokenized sample))) < 2 ^ 63 ->
        c = Z.of_nat (length (offsets (tokenized sample))) - 1 ->
        QuestionAnsweringHead.formatted_preds logits samples segs
        = Raise IndexError)
  /\ QuestionAnsweringHead.shift_clamp [5] [3] = Ok [2]
  /\ getitem (offsets (tokenized qa_short_sample)) 2 = Ok 8
  /\ QuestionAnsweringHead.formatted_preds
       qa_example_logits [qa_short_sample] qa_example_segments
     = Raise IndexError.
Proof.
  split; [|split; [|repeat split]].
  - intros logits samples segs raw_s raw_e shifts ce res i sample c
           H1 Hsh Hce H Hi Hc.
    assert (exists sh_s, QuestionAnsweringHead.shift_indices raw_s raw_e segs
                         = Ok (sh_s, np_add_scalar ce 1)) as [sh_s H2].
    { unfold QuestionAnsweringHead.formatted_preds in H. rewrite H1 in H. cbn in H.
      apply bind_ok in H as ([s' e'] & H2 & _).
      destruct (shift_indices_steps _ _ _ _ _ H2) as (sh' & ce' & E1 & E2 & E3 & ->).
      exists s'. rewrite H2. repeat f_equal. congruence. }
    rewrite (formatted_preds_steps _ samples _ _ _ _ _ H1 H2) in H.
    apply bind_ok in H as (ps & Hps & H). injection H as <-. simpl.
    apply mapM_ok in Hps as [_ Hn].
    destruct (Hn _ _ (enumerate_nth _ _ _ Hi)) as (p & Hp & Hf).
    apply format_sample_ok in Hf as (s & e & _ & He & _ & Hpe & _).
    exists p. split; [exact Hp|].
    unfold np_add_scalar in He. rewrite nth_error_map, Hc in He.
    injection He as <-. exact Hpe.
  - intros logits samples segs raw_s raw_e sh_s shifts ce i sample c
           H1 Hsh Hs Hce Hi Hc Hlen ->.
    assert (QuestionAnsweringHead.shift_indices raw_s raw_e segs
            = Ok (sh_s, np_add_scalar ce 1)) as H2.
    { unfold QuestionAnsweringHead.shift_indices. rewrite Hsh. cbn.
      rewrite Hs. cbn. rewrite Hce. reflexivity. }
    rewrite (formatted_preds_steps _ samples _ _ _ _ _ H1 H2).
    rewrite (mapM_raise _ _ IndexError (i, sample)); [reflexivity| | |].
    + intros x e. apply format_sample_raises.
    + eapply nth_error_In. apply enumerate_nth. exact Hi.
    + unfold QuestionAnsweringHead.format_sample.
      destruct (getitem sh_s _) as [s|e1] eqn:E1; cbn;
        [|now rewrite (getitem_raises _ _ _ E1)].
      assert (getitem (np_add_scalar ce 1) (Z.of_nat i)
              = Ok (Z.of_nat (length (offsets (tokenized sample))))) as ->.
      { apply getitem_nat. unfold np_add_scalar. rewrite nth_error_map, Hc.
        simpl. rewrite wrap64_small by lia. f_equal. lia. }
      cbn. destruct (getitem _ s) as [ps|e3] eqn:E3; cbn;
        [|now rewrite (getitem_raises _ _ _ E3)].
      now rewrite getitem_past_end.
Qed.

Lemma qa_end_offset_one_past_answer_witness :
  QuestionAnsweringHead.formatted_preds
    qa_example_logits [qa_short_sample] qa_example_segments
  = Raise IndexError
  /\ exists p,
       nth_error (QuestionAnsweringHead.predictions qa_example_result) 0 = Some p
       /\ getitem (offsets (tokenized qa_example_sample)) (wrap64 (2 + 1))
          = Ok (QuestionAnsweringHead.pred_end p).
Proof.
  destruct qa_end_offset_one_past_answer as (Hread & Hfail & _).
  split.
  - apply (Hfail qa_example_logits [qa_short_sample] qa_example_segments
             [4] [5] [1] [3] [2] 0%nat qa_short_sample 2);
      try reflexivity.
  - apply (Hread qa_example_logits [qa_example_sample] qa_example_segments
             [4] [5] [3] [2] qa_example_result 0%nat qa_example_sample 2);
      reflexivity.
Defined.

(** ** Persistence of the masked-token head *)

Section Persistence.

Lemma append_cancel_l (p a b : string) : p +:+ a = p +:+ b -> a = b.
Proof.
  induction p as [|c p IH]; [auto|].
  change (String c (p +:+ a) = String c (p +:+ b) -> a = b).
  intros [= H]. auto.
Qed.

Lemma append_assoc_str (a b c : string) : a +:+ b +:+ c = (a +:+ b) +:+ c.
Proof.
  induction a as [|x a IH]; [reflexivity|].
  change (String x (a +:+ b +:+ c) = String x ((a +:+ b) +:+ c)).
  now f_equal.
Qed.

Lemma os_path_join_prefix (a b : string) :
  starts_with_slash b = false -> exists p, os_path_join a b = p +:+ b
    /\ forall b', starts_with_slash b' = false -> os_path_join a b' = p +:+ b'.
Proof.
  intros Hb. unfold os_path_join. destruct a as [|c a].
  - exists "". rewrite Hb. split; [reflexivity|]. now intros b' ->.
  - destruct (ends_with_slash (String c a)).
    + exists (String c a). rewrite Hb. split; [reflexivity|]. now intros b' ->.
    + exists (String c a +:+ "/"). rewrite Hb.
      split; [apply append_assoc_str|]. intros b' ->. apply append_assoc_str.
Qed.

Lemma model_path_not_config_path save_dir head_num :
  PredictionHead.model_path save_dir head_num
  <> PredictionHead.config_path save_dir head_num.
Proof.
  unfold PredictionHead.model_path, PredictionHead.config_path.
  destruct (os_path_join_prefix save_dir
              ("prediction_head_" +:+ str_of_int head_num +:+ ".bin") eq_refl)
    as (p & -> & Hp).
  rewrite (Hp ("prediction_head_" +:+ str_of_int head_num +:+ "_config.json")
             eq_refl).
  intros H%append_cancel_l.
  apply (append_cancel_l "prediction_head_") in H.
  apply append_cancel_l in H. discriminate.
Qed.

End Persistence.

(** C8. [BertLMHead.save] writes the config file and nothing else: every
    other path keeps its content, none of the files it leaves is a
    weights file that was not there before, and the weights path of the
    head is untouched; the base class does write weights there.  Every
    call of [BertLMHead.load] raises [NotImplementedError]. *)
Theorem bert_lm_head_save_load :
  (forall self save_dir head_num w,
      let w' := BertLMHead.save self save_dir head_num w in
      files w' = <[PredictionHead.config_path save_dir head_num :=
                     JsonFile (BertLMHead.config self)]> (files w)
      /\ (forall path sd,
            files w' !! path = Some (TorchFile sd) ->
            files w !! path = Some (TorchFile sd))
      /\ files w' !! PredictionHead.model_path save_dir head_num
         = files w !! PredictionHead.model_path save_dir head_num)
  /\ (forall state_dict config save_dir head_num w,
        files (PredictionHead.save state_dict config save_dir head_num w)
          !! PredictionHead.model_path save_dir head_num
        = Some (TorchFile state_dict))
  /\ (forall model_file config_file,
        BertLMHead.load model_file config_file
        = Raise (NotImplementedError
                   "BertLMHead does not currently support loading")).
Proof.
  split; [|split].
  - intros self save_dir head_num w w'. split; [reflexivity|split].
    + intros path sd. subst w'. simpl.
      destruct (decide (PredictionHead.config_path save_dir head_num = path))
        as [<-|Hne].
      * rewrite lookup_insert_eq. discriminate.
      * now rewrite lookup_insert_ne.
    + subst w'. simpl. apply lookup_insert_ne.
      intros H. symmetry in H. revert H. apply model_path_not_config_path.
  - intros state_dict config save_dir head_num w. simpl.
    rewrite lookup_insert_ne, lookup_insert_eq; [reflexivity|].
    intros H. symmetry in H. revert H. apply model_path_not_config_path.
  - reflexivity.
Qed.

(** ** The store monad *)

Section Store.
Import Torch.








Lemma read_int_ok t h d :
  h !! data_ptr t = Some (IntStorage d) -> length d = numel t ->
  read_int t h = (Ok d, h).
Proof. intros Hh Hl. unfold read_int. now rewrite Hh, Hl, Nat.eqb_refl. Qed.

Lemma read_float_ok t h d :
  h !! data_ptr t = Some (FloatStorage d) -> length d = numel t ->
  read_float t h = (Ok d, h).
Proof. intros Hh Hl. unfold read_float. now rewrite Hh, Hl, Nat.eqb_refl. Qed.

Lemma bind_run {A B} (m : M A) (k : A -> M B) h a h' :
  m h = (Ok a, h') -> (m ≫= k) h = k a h'.
Proof. intros H. unfold mbind, M_bind. now rewrite H. Qed.

Lemma loss_fct_ok L input target h n c m x y :
  shape input = [n; c] -> shape target = [m] ->
  h !! data_ptr input = Some (FloatStorage x) -> length x = (n * c)%nat ->
  h !! data_ptr target = Some (IntStorage y) -> length y = m ->
  loss_fct L input target h = (cross_entropy L c (rows_of n c x) y, h).
Proof.
  intros Hsi Hst Hx Hlx Hy Hly. unfold loss_fct, read_rows.
  rewrite Hst, Hsi. simpl nth.
  assert (Hr : read_float input h = (Ok x, h)).
  { apply read_float_ok; [exact Hx|]. unfold numel. rewrite Hsi. simpl. lia. }
  assert (Hi : read_int target h = (Ok y, h)).
  { apply read_int_ok; [exact Hy|]. unfold numel. rewrite Hst. simpl. lia. }
  unfold mbind, M_bind. rewrite Hr. unfold mret, M_ret. rewrite Hi.
  reflexivity.
Qed.

End Store.

(** ** Cross entropy *)

Section CrossEntropy.
Import Torch.

Lemma position_loss_valid L c row t :
  valid_target L c t -> exists p, position_loss L c row t = Ok p.
Proof.
  intros Hv. unfold position_loss.
  destruct (Z.eqb_spec t (ignore_index L)) as [_|Hne]; [eauto|].
  destruct Hv as [?|[H0 Hc]]; [contradiction|].
  destruct (Z.leb_spec 0 t); [|lia]. destruct (Z.ltb_spec t (Z.of_nat c)); [|lia].
  simpl. eauto.
Qed.

Lemma cross_entropy_none L c rows targets :
  loss_reduction L = ReductionNone ->
  length rows = length targets ->
  weight_fits L c ->
  Forall (valid_target L c) targets ->
  exists v, cross_entropy L c rows targets = Ok (Vector v)
            /\ length v = length targets.
Proof.
  intros Hred Hlen Hw Hv. unfold cross_entropy.
  rewrite Hlen, Nat.eqb_refl. simpl negb. cbv iota.
  assert (Hwb : match weight L with
                | Some ws => negb (Nat.eqb (length ws) c)
                | None => false
                end = false).
  { unfold weight_fits in Hw. destruct (weight L); [|reflexivity].
    now rewrite Hw, Nat.eqb_refl. }
  rewrite Hwb.
  assert (Hall : forall x, In x (combine rows targets) ->
                   exists p, (fun '(row, t) => position_loss L c row t) x = Ok p).
  { intros [row t] Hin. apply position_loss_valid.
    apply in_combine_r in Hin. rewrite List.Forall_forall in Hv. auto. }
  destruct (mapM_all_ok _ _ Hall) as [ps Hps].
  rewrite Hps. cbn. rewrite Hred. eexists; split; [reflexivity|].
  apply mapM_ok in Hps as [Hl _].
  rewrite length_map, Hl, length_combine. lia.
Qed.

Lemma clamp_valid (lo := 0) (hi : nat) w r x :
  valid_target {| weight := w; ignore_index := Z.of_nat hi; loss_reduction := r |}
               hi (clamp 0 (Z.of_nat hi) x).
Proof. unfold valid_target, clamp. simpl. lia. Qed.

Lemma clamp_idem lo hi x : clamp lo hi (clamp lo hi x) = clamp lo hi x.
Proof. unfold clamp. lia. Qed.


End CrossEntropy.

(** ** QuestionAnsweringHead.logits_to_loss *)

Section QALoss.
Import Torch QuestionAnsweringHead.

Lemma squeeze_position_shape n p :
  position_shape n p ->
  data_ptr (squeeze_position p) = data_ptr p
  /\ shape (squeeze_position p) = [n].
Proof.
  unfold squeeze_position, squeeze_last.
  intros [H|H]; rewrite H; simpl; auto.
Qed.


Lemma clamp__run t lo hi h d :
  h !! data_ptr t = Some (IntStorage d) ->
  clamp_ t lo hi h
  = (Ok tt, <[data_ptr t := IntStorage (map (clamp lo hi) d)]> h).
Proof. intros H. unfold clamp_. now rewrite H. Qed.

Lemma map_clamp_idem lo hi d :
  map (clamp lo hi) (map (clamp lo hi) d) = map (clamp lo hi) d.
Proof. rewrite map_map. apply map_ext. intros; apply clamp_idem. Qed.

Lemma half_sum_length a b :
  length a = length b ->
  half_sum a b = Ok (map (fun x => (x / 2)%R) (map2 Rplus a b))
  /\ length (map (fun x => (x / 2)%R) (map2 Rplus a b)) = length a.
Proof.
  intros H. unfold half_sum, broadcast2. rewrite H, Nat.eqb_refl. cbn.
  split; [reflexivity|]. rewrite length_map.
  revert b H; induction a as [|x a IH]; intros [|y b] H; try discriminate;
    [reflexivity|]. simpl. f_equal. apply IH. now injection H.
Qed.

(** The run of [logits_to_loss] on a well-formed batch. *)
Lemma logits_to_loss_run h start_logits end_logits start_position end_position
      n len xs xe ps pe :
  shape start_logits = [n; len] -> shape end_logits = [n; len] ->
  position_shape n start_position -> position_shape n end_position ->
  h !! data_ptr start_logits = Some (FloatStorage xs) ->
  length xs = (n * len)%nat ->
  h !! data_ptr end_logits = Some (FloatStorage xe) ->
  length xe = (n * len)%nat ->
  h !! data_ptr start_position = Some (IntStorage ps) -> length ps = n ->
  h !! data_ptr end_position = Some (IntStorage pe) -> length pe = n ->
  let L := {| weight := None; ignore_index := Z.of_nat len;
              loss_reduction := ReductionNone |} in
  let h' := <[data_ptr end_position :=
                IntStorage (map (clamp 0 (Z.of_nat len)) pe)]>
            (<[data_ptr start_position :=
                 IntStorage (map (clamp 0 (Z.of_nat len)) ps)]> h) in
  exists v1 v2,
    cross_entropy L len (rows_of n len xs) (map (clamp 0 (Z.of_nat len)) ps)
    = Ok (Vector v1)
    /\ cross_entropy L len (rows_of n len xe) (map (clamp 0 (Z.of_nat len)) pe)
       = Ok (Vector v2)
    /\ length v1 = n /\ length v2 = n
    /\ logits_to_loss (start_logits, end_logits) start_position end_position h
       = (Ok (map (fun x => (x / 2)%R) (map2 Rplus v1 v2)), h').
Proof.
  intros Hsl Hel Hsp Hep Hxs Hlxs Hxe Hlxe Hps Hlps Hpe Hlpe L h'.
  destruct (squeeze_position_shape _ _ Hsp) as [Psp Ssp].
  destruct (squeeze_position_shape _ _ Hep) as [Pep Sep].
  set (cl := clamp 0 (Z.of_nat len)) in *.
  assert (Hrows : forall x : list Q, length (rows_of n len x) = n).
  { intros x. unfold rows_of. now rewrite length_map, length_seq. }
  destruct (cross_entropy_none L len (rows_of n len xs) (map cl ps))
    as (v1 & Hv1 & Hl1); try easy.
  { now rewrite Hrows, length_map. }
  { apply Forall_map, Forall_forall. intros x _. apply clamp_valid. }
  destruct (cross_entropy_none L len (rows_of n len xe) (map cl pe))
    as (v2 & Hv2 & Hl2); try easy.
  { now rewrite Hrows, length_map. }
  { apply Forall_map, Forall_forall. intros x _. apply clamp_valid. }
  rewrite length_map in Hl1, Hl2.
  exists v1, v2. repeat (split; [congruence|]).
  set (h1 := <[data_ptr start_position := IntStorage (map cl ps)]> h).
  assert (Hne_s : data_ptr start_logits <> data_ptr start_position) by congruence.
  assert (Hne_s' : data_ptr start_logits <> data_ptr end_position) by congruence.
  assert (Hne_e : data_ptr end_logits <> data_ptr start_position) by congruence.
  assert (Hne_e' : data_ptr end_logits <> data_ptr end_position) by congruence.
  (* the second clamp reads what the first one wrote when the positions
     share their storage *)
  assert (H2 : clamp_ (squeeze_position end_position) 0 (Z.of_nat len) h1
               = (Ok tt, h')).
  { destruct (decide (data_ptr start_position = data_ptr end_position)) as [E|NE].
    - assert (pe = ps) as -> by congruence.
      rewrite (clamp__run _ _ _ _ (map cl ps)).
      + subst h' h1. unfold cl. now rewrite map_clamp_idem, Pep.
      + rewrite Pep, <- E. subst h1. apply lookup_insert_eq.
    - rewrite (clamp__run _ _ _ _ pe).
      + subst h' h1. now rewrite Pep.
      + rewrite Pep. subst h1. now rewrite lookup_insert_ne. }
  assert (Hs' : h' !! data_ptr start_position = Some (IntStorage (map cl ps))).
  { subst h' h1.
    destruct (decide (data_ptr end_position = data_ptr start_position)) as [E|NE].
    - rewrite E, lookup_insert_eq. repeat f_equal. congruence.
    - now rewrite lookup_insert_ne, lookup_insert_eq. }
  assert (He' : h' !! data_ptr end_position = Some (IntStorage (map cl pe))).
  { subst h'. apply lookup_insert_eq. }
  unfold logits_to_loss.
  erewrite bind_run; [|unfold lift, size; rewrite Hsl; reflexivity].
  erewrite bind_run; [|rewrite (clamp__run _ _ _ _ ps); [rewrite Psp; reflexivity|now rewrite Psp]].
  fold cl. fold h1.
  erewrite bind_run; [|exact H2].
  erewrite bind_run.
  2:{ rewrite (loss_fct_ok _ _ _ _ n len n xs (map cl ps)); try easy.
      - fold L. rewrite Hv1. reflexivity.
      - subst h' h1. now rewrite !lookup_insert_ne by congruence.
      - now rewrite Psp.
      - now rewrite length_map. }
  erewrite bind_run.
  2:{ rewrite (loss_fct_ok _ _ _ _ n len n xe (map cl pe)); try easy.
      - fold L. rewrite Hv2. reflexivity.
      - subst h' h1. now rewrite !lookup_insert_ne by congruence.
      - now rewrite Pep.
      - now rewrite length_map. }
  simpl loss_values. unfold lift.
  destruct (half_sum_length v1 v2) as [-> _]; [congruence|reflexivity].
Qed.

End QALoss.

(** ** Loss of the text classification head *)

Section TextLoss.
Import Torch.

Lemma numel_view_flat t : shape (view_flat t) = [numel t].
Proof. reflexivity. Qed.

Lemma text_logits_to_loss_run self h logits label_ids n c x y :
  loss_reduction (TextClassificationHead.loss_fct self) = ReductionNone ->
  shape logits = [n; c] -> numel label_ids = n ->
  h !! data_ptr logits = Some (FloatStorage x) -> length x = (n * c)%nat ->
  h !! data_ptr label_ids = Some (IntStorage y) -> length y = n ->
  weight_fits (TextClassificationHead.loss_fct self) c ->
  Forall (valid_target (TextClassificationHead.loss_fct self) c) y ->
  exists v,
    TextClassificationHead.logits_to_loss self logits label_ids h
    = (Ok (Vector v), h)
    /\ length v = n.
Proof.
  intros Hred Hsh Hnum Hx Hlx Hy Hly Hw Hv.
  unfold TextClassificationHead.logits_to_loss.
  rewrite (loss_fct_ok _ _ _ _ n c n x y); auto; [|now rewrite numel_view_flat, Hnum].
  destruct (cross_entropy_none (TextClassificationHead.loss_fct self) c
              (rows_of n c x) y) as (v & -> & Hl); auto.
  - unfold rows_of. now rewrite length_map, length_seq.
  - exists v. split; [reflexivity|congruence].
Qed.


End TextLoss.



(** ** What [logits_to_loss] does to the store *)

Section Frame.
Import Torch.









End Frame.




(** ** Loss of the masked-token head *)

Section MaskedTokenLoss.
Import Torch.

Lemma nll_two_zeros : nll [0; 0]%Q 0 = ln 2.
Proof.
  unfold nll. cbn [map nth Rsum fold_right].
  rewrite RMicromega.Q2R_0, exp_0.
  replace (1 + (1 + 0))%R with 2%R by lra. lra.
Qed.

Lemma lm_flat_loss :
  cross_entropy BertLMHead.loss_fct 2
    (rows_of 4 2 [0; 0; 0; 0; 0; 0; 0; 0]%Q) [-1; 0; -1; -1]
  = Ok (Vector [0; ln 2; 0; 0]%R).
Proof.
  cbn -[nll Rmult]. change (Z.to_nat 0) with 0%nat.
  change (Z.of_nat 2) with 2. cbn -[nll Rmult].
  rewrite nll_two_zeros. repeat f_equal. lra.
Qed.

End MaskedTokenLoss.

(** C1 (the code at the failing input). On a batch of two samples of
    two positions whose only labelled position is the second one of the
    first sample, the per-position losses are [0, ln 2, 0, 0];
    [BertLMHead.logits_to_loss] returns [0, ln 2 / 2], whereas the
    averages of each sample's own positions are [ln 2 / 2, 0]: the loss
    of the first sample is reported for the second. *)
Theorem bert_lm_loss_mixes_samples :
  Torch.cross_entropy BertLMHead.loss_fct 2
    (Torch.rows_of 4 2 [0; 0; 0; 0; 0; 0; 0; 0]%Q) [-1; 0; -1; -1]
  = Ok (Torch.Vector [0; ln 2; 0; 0]%R)
  /\ BertLMHead.logits_to_loss lm_head lm_logits lm_label_ids lm_store
     = (Ok [0; ln 2 / 2]%R, lm_store)
  /\ BertLMHead.per_sample_average_spec 2 2 [0; ln 2; 0; 0]%R
     = [ln 2 / 2; 0]%R
  /\ [0; ln 2 / 2]%R <> [ln 2 / 2; 0]%R.
Proof.
  split; [exact lm_flat_loss|split; [|split]].
  - unfold BertLMHead.logits_to_loss.
    erewrite bind_run; [|reflexivity].
    erewrite bind_run; [|reflexivity].
    erewrite bind_run.
    2:{ rewrite (loss_fct_ok _ _ _ _ 4%nat 2%nat 4%nat
                   [0; 0; 0; 0; 0; 0; 0; 0]%Q [-1; 0; -1; -1]) by reflexivity.
        rewrite lm_flat_loss. reflexivity. }
    erewrite bind_run; [|reflexivity].
    unfold mret, Torch.M_ret. cbn -[ln Rplus Rdiv INR].
    repeat f_equal; simpl INR; lra.
  - cbn -[ln Rplus Rdiv INR]. repeat f_equal; simpl INR; lra.
  - intros [= H _]. pose proof ln_lt_2. lra.
Qed.

Lemma bert_lm_head_save_load_witness :
  files saved_world !! "out/prediction_head_0.bin" = Some (TorchFile [])
  /\ files (BertLMHead.save lm_head "out" 0 saved_world)
       !! "out/prediction_head_0_config.json"
     = Some (JsonFile [])
  /\ files (BertLMHead.save lm_head "out" 0 saved_world)
       !! PredictionHead.model_path "out" 0
     = files saved_world !! PredictionHead.model_path "out" 0.
Proof.
  destruct bert_lm_head_save_load as (Hsave & _ & _).
  destruct (Hsave lm_head "out" 0 saved_world) as (Hfiles & Hweights & Hpath).
  split; [|split].
  - apply (Hweights "out/prediction_head_0.bin" []). reflexivity.
  - rewrite Hfiles. reflexivity.
  - exact Hpath.
Defined.

(** ** Paths of the saved artifacts *)

Section Paths.

Lemma str_of_int_round_trip (n : Z) : int_of_str (str_of_int n) = Some n.
Proof.
  unfold int_of_str, str_of_int. rewrite NilZero.isi.
  - simpl. now rewrite DecimalZ.of_to.
  - destruct n; simpl; try discriminate.
    intros [= H]. revert H. apply DecimalPos.Unsigned.to_uint_nonnil.
  - destruct n; simpl; try discriminate.
    intros [= H]. revert H. apply DecimalPos.Unsigned.to_uint_nonnil.
Qed.

Lemma str_of_int_inj (n m : Z) : str_of_int n = str_of_int m -> n = m.
Proof.
  intros H. pose proof (str_of_int_round_trip n) as Hn.
  rewrite H, str_of_int_round_trip in Hn. congruence.
Qed.

Lemma list_ascii_of_append (a b : string) :
  list_ascii_of_string (a +:+ b)
  = list_ascii_of_string a ++ list_ascii_of_string b.
Proof.
  induction a as [|c a IH]; [reflexivity|].
  change (c :: list_ascii_of_string (a +:+ b)
          = c :: (list_ascii_of_string a ++ list_ascii_of_string b)).
  now f_equal.
Qed.

Lemma list_ascii_of_string_inj (a b : string) :
  list_ascii_of_string a = list_ascii_of_string b -> a = b.
Proof.
  intros H. rewrite <- (string_of_list_ascii_of_string a),
              <- (string_of_list_ascii_of_string b). now f_equal.
Qed.

Lemma append_cancel_r (a b c : string) : a +:+ c = b +:+ c -> a = b.
Proof.
  intros H. apply list_ascii_of_string_inj.
  apply (f_equal list_ascii_of_string) in H.
  rewrite !list_ascii_of_append in H. now apply app_inv_tail in H.
Qed.

(** The file names of two heads, given by their numbers. *)
Lemma config_name_inj (n m : Z) :
  "prediction_head_" +:+ str_of_int n +:+ "_config.json"
  = "prediction_head_" +:+ str_of_int m +:+ "_config.json" -> n = m.
Proof.
  intros H%append_cancel_l%append_cancel_r. now apply str_of_int_inj.
Qed.

Lemma model_name_inj (n m : Z) :
  "prediction_head_" +:+ str_of_int n +:+ ".bin"
  = "prediction_head_" +:+ str_of_int m +:+ ".bin" -> n = m.
Proof.
  intros H%append_cancel_l%append_cancel_r. now apply str_of_int_inj.
Qed.

Lemma model_name_not_config_name (n m : Z) :
  "prediction_head_" +:+ str_of_int n +:+ ".bin"
  <> "prediction_head_" +:+ str_of_int m +:+ "_config.json".
Proof.
  intros H%append_cancel_l. apply (f_equal list_ascii_of_string) in H.
  rewrite !list_ascii_of_append in H. apply (f_equal (@rev ascii)) in H.
  rewrite !rev_app_distr in H. simpl in H. discriminate H.
Qed.

Lemma path_eq_names save_dir (a b : string) :
  starts_with_slash a = false -> starts_with_slash b = false ->
  os_path_join save_dir a = os_path_join save_dir b -> a = b.
Proof.
  intros Ha Hb. destruct (os_path_join_prefix save_dir a Ha) as (p & -> & Hp).
  rewrite (Hp b Hb). apply append_cancel_l.
Qed.

Lemma config_path_inj save_dir n m :
  PredictionHead.config_path save_dir n = PredictionHead.config_path save_dir m
  -> n = m.
Proof.
  intros H. apply path_eq_names in H; [|reflexivity..].
  now apply config_name_inj.
Qed.

Lemma model_path_inj save_dir n m :
  PredictionHead.model_path save_dir n = PredictionHead.model_path save_dir m
  -> n = m.
Proof.
  intros H. apply path_eq_names in H; [|reflexivity..].
  now apply model_name_inj.
Qed.

Lemma model_path_not_config_path_of save_dir n m :
  PredictionHead.model_path save_dir n <> PredictionHead.config_path save_dir m.
Proof.
  intros H. apply path_eq_names in H; [|reflexivity..].
  revert H. apply model_name_not_config_name.
Qed.

End Paths.

(** X1. Two heads saved into the same directory under different numbers
    do not overwrite each other: after both calls of [save] the weights
    and the config of each head are in the files named by its number. *)
Theorem save_keeps_other_heads sd1 c1 sd2 c2 save_dir n m w :
  n <> m ->
  let w' := PredictionHead.save sd2 c2 save_dir m
              (PredictionHead.save sd1 c1 save_dir n w) in
  files w' !! PredictionHead.model_path save_dir n = Some (TorchFile sd1)
  /\ files w' !! PredictionHead.config_path save_dir n = Some (JsonFile c1)
  /\ files w' !! PredictionHead.model_path save_dir m = Some (TorchFile sd2)
  /\ files w' !! PredictionHead.config_path save_dir m = Some (JsonFile c2).
Proof.
  intros Hnm w'. subst w'. simpl.
  pose proof (model_path_not_config_path_of save_dir) as Hmc.
  assert (Hc : PredictionHead.config_path save_dir m
               <> PredictionHead.config_path save_dir n)
    by (intros E%config_path_inj; congruence).
  assert (Hm : PredictionHead.model_path save_dir m
               <> PredictionHead.model_path save_dir n)
    by (intros E%model_path_inj; congruence).
  repeat split.
  - rewrite lookup_insert_ne by (intros E; symmetry in E; revert E; apply Hmc).
    rewrite lookup_insert_ne by exact Hm.
    rewrite lookup_insert_ne by (intros E; symmetry in E; revert E; apply Hmc).
    apply lookup_insert_eq.
  - rewrite lookup_insert_ne by exact Hc.
    rewrite lookup_insert_ne by apply Hmc.
    apply lookup_insert_eq.
  - rewrite lookup_insert_ne by (intros E; symmetry in E; revert E; apply Hmc).
    apply lookup_insert_eq.
  - apply lookup_insert_eq.
Qed.

Lemma save_keeps_other_heads_witness :
  files (PredictionHead.save [] [("name", JStr "b")] "out" 1
           (PredictionHead.save [] [("name", JStr "a")] "out" 0 saved_world))
    !! PredictionHead.config_path "out" 0
  = Some (JsonFile [("name", JStr "a")]).
Proof.
  refine (proj1 (proj2 (save_keeps_other_heads
                          [] [("name", JStr "a")] [] [("name", JStr "b")]
                          "out" 0 1 saved_world _))).
  discriminate.
Defined.

(** ** The registry *)

Section Registry.






End Registry.


(** ** Entries of an unreduced cross entropy *)

Section LossEntries.
Import Torch.

Lemma combine_nth_error {A B} (xs : list A) (ys : list B) i x y :
  nth_error xs i = Some x -> nth_error ys i = Some y ->
  nth_error (combine xs ys) i = Some (x, y).
Proof.
  revert ys i; induction xs as [|a xs IH]; intros [|b ys] [|i] Hx Hy;
    try discriminate; simpl in *; [congruence|auto].
Qed.

Lemma cross_entropy_none_entry L c rows targets v i row t :
  loss_reduction L = ReductionNone ->
  cross_entropy L c rows targets = Ok (Vector v) ->
  nth_error rows i = Some row -> nth_error targets i = Some t ->
  exists l w, position_loss L c row t = Ok (l, w) /\ nth_error v i = Some l.
Proof.
  intros Hred H Hrow Ht. unfold cross_entropy in H.
  destruct (negb _); [discriminate|].
  destruct (match weight L with Some _ => _ | None => _ end); [discriminate|].
  apply bind_ok in H as (ps & Hps & H). rewrite Hred in H. injection H as <-.
  apply mapM_ok in Hps as [_ Hn].
  destruct (Hn i (row, t) (combine_nth_error _ _ _ _ _ Hrow Ht))
    as ([l w] & Hp & Hf).
  exists l, w. split; [exact Hf|]. rewrite nth_error_map, Hp. reflexivity.
Qed.

Lemma rows_of_nth_error {A} n k (data : list A) i :
  (i < n)%nat ->
  nth_error (rows_of n k data) i = Some (firstn k (skipn (i * k) data)).
Proof.
  intros Hi. unfold rows_of. rewrite nth_error_map.
  rewrite nth_error_seq. destruct (Nat.ltb_spec i n); [reflexivity|lia].
Qed.

Lemma position_loss_value L c row t l w :
  position_loss L c row t = Ok (l, w) ->
  l = (if t =? ignore_index L then 0
       else class_weight (weight L) (Z.to_nat t) * nll row (Z.to_nat t))%R.
Proof.
  unfold position_loss. destruct (t =? ignore_index L); [congruence|].
  destruct (_ && _); [|discriminate]. cbv zeta. congruence.
Qed.

Lemma map2_nth_error {A B C} (f : A -> B -> C) xs ys i x y :
  nth_error xs i = Some x -> nth_error ys i = Some y ->
  nth_error (map2 f xs ys) i = Some (f x y).
Proof.
  revert ys i; induction xs as [|a xs IH]; intros [|b ys] [|i] Hx Hy;
    try discriminate; simpl in *; [congruence|auto].
Qed.

End LossEntries.

(** X3. The loss of the text classification head for one sample: zero
    when its label is the ignored index, and otherwise the negative
    log-likelihood of its label under the softmax of its row of logits,
    times the weight of that class when the head was built with a
    non-empty [class_weights] (an empty list counts as no weights). *)
Theorem text_loss_of_sample layer_dims class_weights ignore self h
    logits label_ids n c x y v i t :
  TextClassificationHead.init layer_dims class_weights ignore
    Torch.ReductionNone = Ok self ->
  Torch.shape logits = [n; c] -> Torch.numel label_ids = n ->
  h !! Torch.data_ptr logits = Some (Torch.FloatStorage x) ->
  length x = (n * c)%nat ->
  h !! Torch.data_ptr label_ids = Some (Torch.IntStorage y) ->
  length y = n ->
  TextClassificationHead.logits_to_loss self logits label_ids h
  = (Ok (Torch.Vector v), h) ->
  nth_error y i = Some t ->
  nth_error v i
  = Some (if t =? ignore then 0
          else Torch.class_weight
                 (if TextClassificationHead.truthy class_weights
                  then class_weights else None) (Z.to_nat t)
               * Torch.nll (firstn c (skipn (i * c) x)) (Z.to_nat t))%R.
Proof.
  intros Hinit Hsh Hnum Hx Hlx Hy Hly Hrun Ht.
  unfold TextClassificationHead.logits_to_loss in Hrun.
  rewrite (loss_fct_ok _ _ _ _ n c n x y) in Hrun; auto;
    [|now rewrite numel_view_flat, Hnum].
  injection Hrun as Hce.
  unfold TextClassificationHead.init in Hinit.
  apply bind_ok in Hinit as (k & _ & [= <-]). simpl in Hce.
  assert (Hi : (i < n)%nat).
  { rewrite <- Hly. apply nth_error_Some. congruence. }
  edestruct cross_entropy_none_entry as (l & w & Hp & Hv);
    [|exact Hce|apply rows_of_nth_error; exact Hi|exact Ht|]; [reflexivity|].
  rewrite Hv. f_equal. apply (position_loss_value _ _ _ _ _ _ Hp).
Qed.

Lemma text_loss_of_sample_witness :
  exists v,
    TextClassificationHead.logits_to_loss text_head text_loss_logits
      text_loss_labels text_loss_store
    = (Ok (Torch.Vector v), text_loss_store)
    /\ nth_error v 1
       = Some (if 0 =? -100 then 0
               else Torch.class_weight None (Z.to_nat 0)
                    * Torch.nll (firstn 2 (skipn (1 * 2) [0; 1; 2; 0]%Q))
                        (Z.to_nat 0))%R.
Proof.
  destruct (text_logits_to_loss_run text_head text_loss_store
              text_loss_logits text_loss_labels 2%nat 2%nat
              [0; 1; 2; 0]%Q [1; 0]) as (v & Hv & _); try reflexivity.
  { repeat (apply List.Forall_cons; [right; simpl; lia|]). apply List.Forall_nil. }
  exists v. split; [exact Hv|].
  exact (text_loss_of_sample [768; 2] None (-100) text_head text_loss_store
           text_loss_logits text_loss_labels 2%nat 2%nat [0; 1; 2; 0]%Q [1; 0]
           v 1%nat 0 eq_refl eq_refl eq_refl eq_refl eq_refl eq_refl eq_refl
           Hv eq_refl).
Defined.

(** X4. The loss of the question answering head for one sample is half
    the sum of a start term and an end term.  A position at or beyond
    the sequence length gives the term zero; a negative position is
    clamped to 0 and is scored as position 0, it is not ignored; any
    other position gives the negative log-likelihood of that position
    under the softmax of the sample's logits. *)
Theorem qa_loss_of_sample h start_logits end_logits start_position end_position
    n len xs xe ps pe i s e :
  Torch.shape start_logits = [n; len] ->
  Torch.shape end_logits = [n; len] ->
  Torch.position_shape n start_position ->
  Torch.position_shape n end_position ->
  h !! Torch.data_ptr start_logits = Some (Torch.FloatStorage xs) ->
  length xs = (n * len)%nat ->
  h !! Torch.data_ptr end_logits = Some (Torch.FloatStorage xe) ->
  length xe = (n * len)%nat ->
  h !! Torch.data_ptr start_position = Some (Torch.IntStorage ps) ->
  length ps = n ->
  h !! Torch.data_ptr end_position = Some (Torch.IntStorage pe) ->
  length pe = n ->
  nth_error ps i = Some s -> nth_error pe i = Some e ->
  exists per_sample_loss,
    fst (QuestionAnsweringHead.logits_to_loss (start_logits, end_logits)
           start_position end_position h) = Ok per_sample_loss
    /\ nth_error per_sample_loss i
       = Some (((if Z.of_nat len <=? Z.max 0 s then 0
                 else 1 * Torch.nll (firstn len (skipn (i * len) xs))
                            (Z.to_nat (Z.max 0 s)))
                + (if Z.of_nat len <=? Z.max 0 e then 0
                   else 1 * Torch.nll (firstn len (skipn (i * len) xe))
                              (Z.to_nat (Z.max 0 e)))) / 2)%R.
Proof.
  intros Hsl Hel Hsp Hep Hxs Hlxs Hxe Hlxe Hps Hlps Hpe Hlpe Hs He.
  destruct (logits_to_loss_run h start_logits end_logits start_position
              end_position n len xs xe ps pe)
    as (v1 & v2 & H1 & H2 & Hl1 & Hl2 & Hrun); auto.
  rewrite Hrun. eexists; split; [reflexivity|].
  assert (Hi : (i < n)%nat).
  { rewrite <- Hlps. apply nth_error_Some. congruence. }
  assert (Hterm : forall x p v,
             Torch.cross_entropy
               {| Torch.weight := None; Torch.ignore_index := Z.of_nat len;
                  Torch.loss_reduction := Torch.ReductionNone |}
               len (Torch.rows_of n len x)
               (map (Torch.clamp 0 (Z.of_nat len)) p) = Ok (Torch.Vector v) ->
             forall q, nth_error p i = Some q ->
             nth_error v i
             = Some (if Z.of_nat len <=? Z.max 0 q then 0
                     else 1 * Torch.nll (firstn len (skipn (i * len) x))
                                (Z.to_nat (Z.max 0 q)))%R).
  { intros x p v Hce q Hq.
    edestruct cross_entropy_none_entry as (l & w & Hp & Hv);
      [|exact Hce|apply rows_of_nth_error; exact Hi
       |rewrite nth_error_map, Hq; reflexivity|]; [reflexivity|].
    rewrite Hv. f_equal. rewrite (position_loss_value _ _ _ _ _ _ Hp).
    simpl. unfold Torch.clamp.
    destruct (Z.leb_spec (Z.of_nat len) (Z.max 0 q)).
    - destruct (Z.eqb_spec (Z.min (Z.max q 0) (Z.of_nat len)) (Z.of_nat len));
        [reflexivity|lia].
    - destruct (Z.eqb_spec (Z.min (Z.max q 0) (Z.of_nat len)) (Z.of_nat len));
        [lia|].
      now replace (Z.min (Z.max q 0) (Z.of_nat len)) with (Z.max 0 q) by lia. }
  rewrite nth_error_map.
  rewrite (map2_nth_error _ _ _ _ _ _ (Hterm _ _ _ H1 _ Hs) (Hterm _ _ _ H2 _ He)).
  reflexivity.
Qed.

Lemma qa_loss_of_sample_witness :
  exists per_sample_loss,
    fst (QuestionAnsweringHead.logits_to_loss qa_loss_logits
           qa_loss_start_position qa_loss_end_position qa_loss_store)
    = Ok per_sample_loss
    /\ nth_error per_sample_loss 0
       = Some (((if Z.of_nat 2 <=? Z.max 0 5 then 0
                 else 1 * Torch.nll (firstn 2 (skipn (0 * 2) [0; 0]%Q))
                            (Z.to_nat (Z.max 0 5)))
                + (if Z.of_nat 2 <=? Z.max 0 (-3) then 0
                   else 1 * Torch.nll (firstn 2 (skipn (0 * 2) [0; 0]%Q))
                              (Z.to_nat (Z.max 0 (-3))))) / 2)%R.
Proof.
  exact (qa_loss_of_sample qa_loss_store (fst qa_loss_logits)
           (snd qa_loss_logits) qa_loss_start_position qa_loss_end_position
           1%nat 2%nat [0; 0]%Q [0; 0]%Q [5] [-3] 0%nat 5 (-3)
           eq_refl eq_refl (or_introl eq_refl) (or_intror eq_refl)
           eq_refl eq_refl eq_refl eq_refl eq_refl eq_refl eq_refl eq_refl
           eq_refl eq_refl).
Defined.

(** ** Loss of the token classification head *)

Section TokenLoss.
Import Torch.

Lemma mask_select_length {A} (xs : list A) (mask : list bool) :
  length xs = length mask ->
  mask_select xs mask = Ok (map fst (List.filter snd (combine xs mask)))
  /\ length (map fst (List.filter snd (combine xs mask)))
     = length (List.filter (fun b => b) mask).
Proof.
  intros H. unfold mask_select. rewrite H, Nat.eqb_refl. split; [reflexivity|].
  rewrite length_map. revert mask H.
  induction xs as [|x xs IH]; intros [|b mask] H; try discriminate;
    [reflexivity|].
  simpl. destruct b; simpl; rewrite IH by (simpl in H; lia); reflexivity.
Qed.

Lemma numel_rows n c : numel {| data_ptr := 0; shape := [n; c] |} = (n * c)%nat.
Proof. unfold numel. simpl. lia. Qed.

Lemma view_rows_ok t n c :
  (0 < c)%nat -> numel t = (n * c)%nat ->
  view_rows_z t (Z.of_nat c) = Ok {| data_ptr := data_ptr t; shape := [n; c] |}.
Proof.
  intros Hc Hn. unfold view_rows_z.
  destruct (Z.leb_spec (Z.of_nat c) 0); [lia|].
  unfold view_rows. rewrite Nat2Z.id, Hn.
  destruct (Nat.eqb_spec c 0); [lia|].
  rewrite Nat.Div0.mod_mul, Nat.div_mul by lia. reflexivity.
Qed.

Lemma read_rows_ok t h n c x :
  shape t = [n; c] ->
  h !! data_ptr t = Some (FloatStorage x) -> length x = (n * c)%nat ->
  read_rows t h = (Ok (rows_of n c x), h).
Proof.
  intros Hs Hx Hl. unfold read_rows. rewrite Hs.
  erewrite bind_run; [reflexivity|].
  apply read_float_ok; [exact Hx|]. unfold numel. rewrite Hs. simpl. lia.
Qed.

End TokenLoss.

(** X5. The token classification head returns one loss per active
    token, not per sample: on a well-formed batch the loss has as many
    entries as the padding mask has ones, and the store is unchanged. *)
Theorem token_loss_per_active_token self h logits label_ids initial_mask
    padding_mask c x y pm :
  (0 < c)%nat ->
  TokenClassificationHead.num_labels self = Z.of_nat c ->
  h !! Torch.data_ptr padding_mask = Some (Torch.IntStorage pm) ->
  length pm = Torch.numel padding_mask ->
  h !! Torch.data_ptr logits = Some (Torch.FloatStorage x) ->
  Torch.numel logits = (length pm * c)%nat ->
  length x = (length pm * c)%nat ->
  h !! Torch.data_ptr label_ids = Some (Torch.IntStorage y) ->
  Torch.numel label_ids = length pm ->
  length y = length pm ->
  Forall (Torch.valid_target TokenClassificationHead.loss_fct c)
         (map fst (List.filter snd (combine y (map (fun m => m =? 1) pm)))) ->
  exists v,
    TokenClassificationHead.logits_to_loss self logits label_ids initial_mask
      (Some padding_mask) h
    = (Ok (Torch.Vector v), h)
    /\ length v = length (List.filter (fun m => m =? 1) pm).
Proof.
  intros Hc Hnl Hpm Hlpm Hx Hnx Hlx Hy Hny Hly Hvalid.
  unfold TokenClassificationHead.logits_to_loss.
  erewrite bind_run.
  2:{ apply read_int_ok; [exact Hpm|]. unfold Torch.view_flat, Torch.numel.
      simpl. fold (Torch.numel padding_mask). lia. }
  rewrite Hnl.
  erewrite bind_run;
    [|unfold Torch.lift; rewrite (view_rows_ok logits (length pm) c Hc Hnx);
      reflexivity].
  erewrite bind_run;
    [|apply (read_rows_ok _ h (length pm) c x); [reflexivity|exact Hx|exact Hlx]].
  set (mask := map (fun m => m =? 1) pm).
  assert (Hmask : length mask = length pm) by (unfold mask; apply length_map).
  destruct (mask_select_length (Torch.rows_of (length pm) c x) mask)
    as [Hsel Hlen].
  { unfold Torch.rows_of. now rewrite length_map, length_seq. }
  erewrite bind_run; [|unfold Torch.lift; rewrite Hsel; reflexivity].
  erewrite bind_run.
  2:{ apply read_int_ok; [exact Hy|]. unfold Torch.view_flat, Torch.numel.
      simpl. fold (Torch.numel label_ids). lia. }
  destruct (mask_select_length y mask) as [Hsel' Hlen']; [congruence|].
  erewrite bind_run; [|unfold Torch.lift; rewrite Hsel'; reflexivity].
  rewrite Nat2Z.id. unfold Torch.lift.
  destruct (cross_entropy_none TokenClassificationHead.loss_fct c
              (map fst (List.filter snd
                          (combine (Torch.rows_of (length pm) c x) mask)))
              (map fst (List.filter snd (combine y mask))))
    as (v & -> & Hv); [reflexivity|congruence|exact I|exact Hvalid|].
  exists v. split; [reflexivity|].
  rewrite Hv, Hlen'. unfold mask. clear.
  induction pm as [|m pm IH]; [reflexivity|].
  simpl. destruct (m =? 1); simpl; now rewrite IH.
Qed.

Lemma token_loss_per_active_token_witness :
  exists v,
    TokenClassificationHead.logits_to_loss token_head token_loss_logits
      token_loss_labels token_padding_mask (Some token_padding_mask)
      token_loss_store
    = (Ok (Torch.Vector v), token_loss_store)
    /\ length v = 2%nat.
Proof.
  refine (token_loss_per_active_token token_head token_loss_store
            token_loss_logits token_loss_labels token_padding_mask
            token_padding_mask 2%nat [0; 1; 2; 0; 0; 0]%Q [1; 0; 0] [1; 1; 0]
            _ eq_refl eq_refl eq_refl eq_refl eq_refl eq_refl eq_refl eq_refl
            eq_refl _).
  - lia.
  - repeat (apply List.Forall_cons; [right; simpl; lia|]). apply List.Forall_nil.
Defined.

(** ** Sums over the rows and columns of a loss *)

Section ColumnSums.
Import Torch.
Local Open Scope R_scope.

Lemma rows_of_succ {A} n k (data : list A) :
  rows_of (S n) k data = firstn k data :: rows_of n k (skipn k data).
Proof.
  unfold rows_of. change (seq 0 (S n)) with (0%nat :: seq 1 n).
  rewrite <- seq_shift. cbn [map]. rewrite map_map.
  f_equal. apply map_ext. intros i. rewrite skipn_skipn. do 2 f_equal. lia.
Qed.

Lemma Rsum_app xs ys : Rsum (xs ++ ys) = Rsum xs + Rsum ys.
Proof. induction xs as [|x xs IH]; simpl; [lra|]. rewrite IH. lra. Qed.

Lemma Rsum_map_plus {A} (f g : A -> R) l :
  Rsum (map (fun j => f j + g j) l) = Rsum (map f l) + Rsum (map g l).
Proof. induction l as [|a l IH]; simpl; [lra|]. rewrite IH. lra. Qed.

Lemma Rsum_map_zero {A} (l : list A) : Rsum (map (fun _ => 0) l) = 0.
Proof. induction l as [|a l IH]; simpl; [reflexivity|]. rewrite IH. lra. Qed.

Lemma Rsum_map_div {A} (f : A -> R) d l :
  Rsum (map (fun j => f j / d) l) = Rsum (map f l) / d.
Proof.
  induction l as [|a l IH]; simpl; [unfold Rdiv; lra|]. rewrite IH.
  unfold Rdiv. lra.
Qed.

Lemma Rsum_nth (l : list R) :
  Rsum (map (fun j => nth j l 0) (seq 0 (length l))) = Rsum l.
Proof.
  induction l as [|a l IH]; [reflexivity|].
  change (seq 0 (length (a :: l))) with (0%nat :: seq 1 (length l)).
  rewrite <- seq_shift. cbn [map]. rewrite map_map. simpl. now rewrite IH.
Qed.

Lemma column_sums n : forall k (data : list R),
  length data = (n * k)%nat ->
  Rsum (map (fun j => Rsum (map (fun row => nth j row 0) (rows_of n k data)))
            (seq 0 k))
  = Rsum data.
Proof.
  induction n as [|n IH]; intros k data Hlen.
  - destruct data; [|discriminate]. apply Rsum_map_zero.
  - rewrite rows_of_succ. simpl map.
    rewrite (Rsum_map_plus (fun j => nth j (firstn k data) 0)).
    rewrite IH by (rewrite length_skipn; lia).
    assert (Hk : length (firstn k data) = k) by (rewrite length_firstn; lia).
    replace (seq 0 k) with (seq 0 (length (firstn k data))) by now rewrite Hk.
    rewrite Rsum_nth, <- Rsum_app, firstn_skipn.
    reflexivity.
Qed.

End ColumnSums.

(** ** Loss of the masked-token head on a well-formed batch *)

Section MaskedTokenRun.
Import Torch.

Lemma bert_logits_to_loss_run self h logits lm_label_ids b s v x y :
  (0 < b)%nat -> (0 < v)%nat ->
  BertLMHead.num_labels self = Z.of_nat v ->
  shape lm_label_ids = [b; s] ->
  numel logits = (b * s * v)%nat ->
  h !! data_ptr logits = Some (FloatStorage x) -> length x = (b * s * v)%nat ->
  h !! data_ptr lm_label_ids = Some (IntStorage y) -> length y = (b * s)%nat ->
  Forall (valid_target BertLMHead.loss_fct v) y ->
  exists flat,
    cross_entropy BertLMHead.loss_fct v (rows_of (b * s) v x) y
    = Ok (Vector flat)
    /\ length flat = (s * b)%nat
    /\ BertLMHead.logits_to_loss self logits lm_label_ids h
       = (Ok (mean_dim0 b (rows_of s b flat)), h).
Proof.
  intros Hb Hv Hnl Hsh Hnum Hx Hlx Hy Hly Hvalid.
  destruct (cross_entropy_none BertLMHead.loss_fct v (rows_of (b * s) v x) y)
    as (flat & Hce & Hflat); [reflexivity| |exact I|exact Hvalid|].
  { unfold rows_of. rewrite length_map, length_seq. congruence. }
  exists flat. split; [exact Hce|]. split; [lia|].
  unfold BertLMHead.logits_to_loss.
  erewrite bind_run; [|unfold lift, size; rewrite Hsh; reflexivity].
  rewrite Hnl.
  erewrite bind_run;
    [|unfold lift; rewrite (view_rows_ok logits (b * s) v Hv Hnum); reflexivity].
  erewrite bind_run.
  2:{ rewrite (loss_fct_ok _ _ _ _ (b * s)%nat v (b * s)%nat x y);
        [rewrite Hce; reflexivity|reflexivity| |exact Hx|exact Hlx|exact Hy
        |exact Hly].
      unfold view_flat, numel. rewrite Hsh. simpl. do 2 f_equal. lia. }
  cbv zeta. unfold lift at 1.
  assert (Hview : view_rows_values flat b = Ok (rows_of s b flat)).
  { unfold view_rows_values. rewrite Hflat, Hly.
    destruct (Nat.eqb_spec b 0); [lia|].
    replace (b * s)%nat with (s * b)%nat by lia.
    rewrite Nat.Div0.mod_mul, Nat.div_mul by lia. reflexivity. }
  erewrite bind_run; [|rewrite Hview; reflexivity].
  reflexivity.
Qed.

End MaskedTokenRun.

(** X6. On a well-formed batch the masked-token head returns [batch]
    loss values whose sum is the sum of all per-position losses divided
    by the sequence length, so the mean over the batch is the mean over
    all positions whatever the grouping; and with a batch of one sample
    the value is that sample's own average. *)
Theorem bert_lm_loss_total self h logits lm_label_ids b s v x y :
  (0 < b)%nat -> (0 < v)%nat ->
  BertLMHead.num_labels self = Z.of_nat v ->
  Torch.shape lm_label_ids = [b; s] ->
  Torch.numel logits = (b * s * v)%nat ->
  h !! Torch.data_ptr logits = Some (Torch.FloatStorage x) ->
  length x = (b * s * v)%nat ->
  h !! Torch.data_ptr lm_label_ids = Some (Torch.IntStorage y) ->
  length y = (b * s)%nat ->
  Forall (Torch.valid_target BertLMHead.loss_fct v) y ->
  exists flat per_sample_loss,
    Torch.cross_entropy BertLMHead.loss_fct v (Torch.rows_of (b * s) v x) y
    = Ok (Torch.Vector flat)
    /\ BertLMHead.logits_to_loss self logits lm_label_ids h
       = (Ok per_sample_loss, h)
    /\ length per_sample_loss = b
    /\ Torch.Rsum per_sample_loss = (Torch.Rsum flat / INR s)%R
    /\ (b = 1%nat ->
        per_sample_loss = BertLMHead.per_sample_average_spec 1 s flat).
Proof.
  intros Hb Hv Hnl Hsh Hnum Hx Hlx Hy Hly Hvalid.
  destruct (bert_logits_to_loss_run self h logits lm_label_ids b s v x y)
    as (flat & Hce & Hflat & Hrun); auto.
  exists flat, (Torch.mean_dim0 b (Torch.rows_of s b flat)).
  assert (Hrows : length (Torch.rows_of s b flat) = s).
  { unfold Torch.rows_of. now rewrite length_map, length_seq. }
  assert (Hsum : Torch.Rsum (Torch.mean_dim0 b (Torch.rows_of s b flat))
                 = (Torch.Rsum flat / INR s)%R).
  { unfold Torch.mean_dim0. rewrite Hrows.
    rewrite (Rsum_map_div
               (fun j => Torch.Rsum (map (fun row => nth j row 0%R)
                                         (Torch.rows_of s b flat)))).
    now rewrite column_sums. }
  repeat split; auto.
  - unfold Torch.mean_dim0. now rewrite length_map, length_seq.
  - intros ->. unfold BertLMHead.per_sample_average_spec.
    unfold Torch.mean_dim0 in Hsum |- *. cbn [seq map Torch.Rsum fold_right] in Hsum.
    unfold Torch.rows_of at 3. cbn [seq map].
    change (skipn (0 * s) flat) with flat.
    rewrite firstn_all2 by lia. rewrite Hrows in Hsum |- *.
    f_equal. lra.
Qed.

Lemma bert_lm_loss_total_witness :
  exists flat per_sample_loss,
    Torch.cross_entropy BertLMHead.loss_fct 2
      (Torch.rows_of (2 * 2) 2 [0; 0; 0; 0; 0; 0; 0; 0]%Q) [-1; 0; -1; -1]
    = Ok (Torch.Vector flat)
    /\ BertLMHead.logits_to_loss lm_head lm_logits lm_label_ids lm_store
       = (Ok per_sample_loss, lm_store)
    /\ length per_sample_loss = 2%nat
    /\ Torch.Rsum per_sample_loss = (Torch.Rsum flat / INR 2)%R
    /\ (2%nat = 1%nat ->
        per_sample_loss = BertLMHead.per_sample_average_spec 1 2 flat).
Proof.
  refine (bert_lm_loss_total lm_head lm_store lm_logits lm_label_ids
            2%nat 2%nat 2%nat [0; 0; 0; 0; 0; 0; 0; 0]%Q [-1; 0; -1; -1]
            _ _ eq_refl eq_refl eq_refl eq_refl eq_refl eq_refl eq_refl _);
    [lia|lia|].
  apply List.Forall_cons; [left; reflexivity|].
  apply List.Forall_cons; [right; simpl; lia|].
  apply List.Forall_cons; [left; reflexivity|].
  apply List.Forall_cons; [left; reflexivity|]. apply List.Forall_nil.
Defined.

(** ** The index of the first maximum *)

Section Argmax.

Lemma argmax_from_spec xs : forall pre best best_i,
  nth_error pre best_i = Some best ->
  (forall j y, nth_error pre j = Some y -> Qle y best) ->
  (forall j y, (j < best_i)%nat -> nth_error pre j = Some y -> Qlt y best) ->
  exists m,
    nth_error (pre ++ xs) (argmax_from best best_i (length pre) xs) = Some m
    /\ (forall j y, nth_error (pre ++ xs) j = Some y -> Qle y m)
    /\ (forall j y, (j < argmax_from best best_i (length pre) xs)%nat ->
                    nth_error (pre ++ xs) j = Some y -> Qlt y m).
Proof.
  induction xs as [|x xs IH]; intros pre best best_i Hb Hle Hlt.
  - simpl. rewrite app_nil_r. eauto.
  - assert (Hbi : (best_i < length pre)%nat)
      by (apply nth_error_Some; congruence).
    assert (Hsplit : forall j y, nth_error (pre ++ [x]) j = Some y ->
                       nth_error pre j = Some y \/ (j = length pre /\ y = x)).
    { intros j y Hj. destruct (Nat.lt_ge_cases j (length pre)) as [Hlt'|Hge].
      - left. now rewrite nth_error_app1 in Hj.
      - right. rewrite nth_error_app2 in Hj by exact Hge.
        destruct (j - length pre)%nat as [|d] eqn:E; simpl in Hj.
        + split; [lia|congruence].
        + destruct d; discriminate. }
    simpl argmax_from.
    replace (pre ++ x :: xs) with ((pre ++ [x]) ++ xs)
      by (now rewrite <- app_assoc).
    replace (S (length pre)) with (length (pre ++ [x]))
      by (rewrite length_app; simpl; lia).
    destruct (Qle_bool x best) eqn:Ex.
    + apply Qle_bool_iff in Ex. apply IH.
      * now rewrite nth_error_app1.
      * intros j y Hj. destruct (Hsplit j y Hj) as [H|[_ ->]]; eauto.
      * intros j y Hj Hy. destruct (Hsplit j y Hy) as [H|[-> _]]; [eauto|lia].
    + assert (Hx : Qlt best x).
      { apply Qnot_le_lt. intros H. apply Qle_bool_iff in H. congruence. }
      apply IH.
      * rewrite nth_error_app2 by lia. now rewrite Nat.sub_diag.
      * intros j y Hj. destruct (Hsplit j y Hj) as [H|[_ ->]].
        -- apply Qlt_le_weak. eapply Qle_lt_trans; [apply (Hle j y H)|exact Hx].
        -- apply Qle_refl.
      * intros j y Hj Hy. destruct (Hsplit j y Hy) as [H|[-> _]]; [|lia].
        eapply Qle_lt_trans; [apply (Hle j y H)|exact Hx].
Qed.

Lemma first_max_of_row x xs :
  first_max (x :: xs) (Z.of_nat (argmax_from x 0 1 xs)).
Proof.
  destruct (argmax_from_spec xs [x] x 0%nat eq_refl) as (m & Hm & Hle & Hlt).
  - intros [|[|j]] y H; simpl in H; try discriminate.
    injection H as <-. apply Qle_refl.
  - intros j y Hj. lia.
  - exists m. rewrite Nat2Z.id. repeat split; auto. lia.
Qed.

Lemma argmax_first_max row k : argmax row = Ok k -> first_max row k.
Proof.
  destruct row as [|x xs]; [discriminate|]. intros [= <-].
  apply first_max_of_row.
Qed.

Lemma np_argmax_first_max row k : np_argmax row = Ok k -> first_max row k.
Proof.
  destruct row as [|x xs]; [discriminate|]. intros [= <-].
  apply first_max_of_row.
Qed.

Lemma first_max_in_range row k :
  first_max row k -> 0 <= k < Z.of_nat (length row).
Proof.
  intros (m & Hk & Hm & _).
  assert (nth_error row (Z.to_nat k) <> None) as H%nth_error_Some by congruence.
  lia.
Qed.

Lemma mapM_nth_error {A B} (f : A -> result B) xs ys i y :
  mapM f xs = Ok ys -> nth_error ys i = Some y ->
  exists x, nth_error xs i = Some x /\ f x = Ok y.
Proof.
  intros H Hy. apply mapM_ok in H as [Hl Hn].
  destruct (nth_error xs i) as [x|] eqn:Ex.
  - destruct (Hn i x Ex) as (y' & Hy' & Hf). exists x. split; congruence.
  - apply nth_error_None in Ex.
    assert (nth_error ys i <> None) as H%nth_error_Some by congruence. lia.
Qed.

End Argmax.

(** X7. [QuestionAnsweringHead.logits_to_preds] returns for every sample
    a start index and an end index that lie inside the sequence and
    point at the first largest start logit and the first largest end
    logit of that sample, chosen independently of each other; it
    returns whenever no row of logits is empty. *)
Theorem qa_logits_to_preds_first_max :
  (forall start_logits end_logits,
      Forall (fun row => row <> []) start_logits ->
      Forall (fun row => row <> []) end_logits ->
      exists start_idx end_idx,
        QuestionAnsweringHead.logits_to_preds (start_logits, end_logits)
        = Ok (start_idx, end_idx))
  /\ (forall start_logits end_logits start_idx end_idx,
        QuestionAnsweringHead.logits_to_preds (start_logits, end_logits)
        = Ok (start_idx, end_idx) ->
        length start_idx = length start_logits
        /\ length end_idx = length end_logits
        /\ (forall i row, nth_error start_logits i = Some row ->
              exists k, nth_error start_idx i = Some k
                        /\ first_max row k
                        /\ 0 <= k < Z.of_nat (length row))
        /\ (forall i row, nth_error end_logits i = Some row ->
              exists k, nth_error end_idx i = Some k
                        /\ first_max row k
                        /\ 0 <= k < Z.of_nat (length row))).
Proof.
  assert (Hrows : forall t idx,
             torch_argmax_dim1 t = Ok idx ->
             length idx = length t
             /\ forall i row, nth_error t i = Some row ->
                  exists k, nth_error idx i = Some k /\ first_max row k
                            /\ 0 <= k < Z.of_nat (length row)).
  { intros t idx H. apply mapM_ok in H as [Hl Hn]. split; [exact Hl|].
    intros i row Hrow. destruct (Hn i row Hrow) as (k & Hk & Ha).
    exists k. apply argmax_first_max in Ha.
    split; [exact Hk|]. split; [exact Ha|]. now apply first_max_in_range. }
  split.
  - intros sl el Hs He. unfold QuestionAnsweringHead.logits_to_preds.
    assert (Hall : forall t, Forall (fun row : list Q => row <> []) t ->
                     exists idx, torch_argmax_dim1 t = Ok idx).
    { intros t Ht. apply mapM_all_ok. intros [|x xs] Hin; [|simpl; eauto].
      rewrite List.Forall_forall in Ht. now destruct (Ht _ Hin). }
    destruct (Hall sl Hs) as [si ->]. destruct (Hall el He) as [ei ->].
    exists si, ei. reflexivity.
  - intros sl el si ei H. unfold QuestionAnsweringHead.logits_to_preds in H.
    apply bind_ok in H as (si' & Hs & H). apply bind_ok in H as (ei' & He & H).
    injection H as <- <-.
    destruct (Hrows _ _ Hs) as [Hls Hns]. destruct (Hrows _ _ He) as [Hle Hne].
    auto.
Qed.

(** X8. [TextClassificationHead.logits_to_preds] returns one label per
    sample, the entry of the label map at the index of the first
    largest logit of the sample; it raises [ValueError] on a sample
    without logits. *)
Theorem text_logits_to_preds_first_max :
  (forall logits label_map preds,
      TextClassificationHead.logits_to_preds logits label_map = Ok preds ->
      length preds = length logits
      /\ forall i row, nth_error logits i = Some row ->
           exists k p, first_max row k /\ label_map k = Ok p
                       /\ nth_error preds i = Some p)
  /\ (forall logits label_map,
        In [] logits ->
        TextClassificationHead.logits_to_preds logits label_map
        = Raise ValueError).
Proof.
  split.
  - intros logits label_map preds H.
    unfold TextClassificationHead.logits_to_preds in H.
    apply bind_ok in H as (ids & Hids & Hp).
    apply mapM_ok in Hids as [Hl Hn]. apply mapM_ok in Hp as [Hl' Hn'].
    split; [congruence|]. intros i row Hrow.
    destruct (Hn i row Hrow) as (k & Hk & Ha).
    destruct (Hn' i k Hk) as (p & Hp & Hf).
    exists k, p. repeat split; auto. now apply np_argmax_first_max.
  - intros logits label_map Hin.
    unfold TextClassificationHead.logits_to_preds, np_argmax_axis1.
    rewrite (mapM_raise np_argmax logits ValueError []); auto.
    intros [|x xs] e; simpl; congruence.
Qed.

(** ** When [formatted_preds] of the question answering head returns *)

Section QAReturns.
Import QuestionAnsweringHead.

Lemma getitem_in_range {A} (xs : list A) i :
  0 <= i < Z.of_nat (length xs) -> exists x, getitem xs i = Ok x.
Proof.
  intros H. unfold getitem.
  destruct (Z.ltb_spec i 0); [lia|].
  destruct (Z.ltb_spec i 0); [lia|].
  destruct (Z.leb_spec (Z.of_nat (length xs)) i); [lia|]. simpl.
  destruct (nth_error xs (Z.to_nat i)) as [x|] eqn:E; [eauto|].
  apply nth_error_None in E. lia.
Qed.

Lemma getitem_beyond {A} (xs : list A) i :
  Z.of_nat (length xs) <= i -> getitem xs i = Raise IndexError.
Proof.
  intros H. unfold getitem.
  destruct (Z.ltb_spec i 0); [lia|].
  destruct (Z.ltb_spec i 0); [lia|].
  destruct (Z.leb_spec (Z.of_nat (length xs)) i); [|lia].
  now rewrite orb_true_r.
Qed.

Lemma format_sample_fields sh_s sh_e i sample p :
  format_sample sh_s sh_e (i, sample) = Ok p ->
  pred_context p = question_text (clear_text sample)
  /\ pred_probability p = "unkown".
Proof.
  unfold format_sample. intros H.
  apply bind_ok in H as (s & Hs & H). apply bind_ok in H as (e & He & H).
  apply bind_ok in H as (ps & Hps & H). apply bind_ok in H as (pe & Hpe & H).
  injection H as <-. auto.
Qed.

Lemma enumerate_in {A} (xs : list A) i x :
  In (i, x) (enumerate xs) -> nth_error xs i = Some x.
Proof.
  intros H. apply In_nth_error in H as [j Hj].
  now apply enumerate_nth_inv in Hj as [-> Hx].
Qed.

End QAReturns.

(** X9. Once the indices are predicted and shifted,
    [QuestionAnsweringHead.formatted_preds] returns when every sample
    has a shifted start index and an end index inside its offset table;
    the result then has the task "qa" and one record per sample, whose
    context is the question text (not the passage) and whose
    probability is the text "unkown".  It raises [IndexError] when
    there are more samples than predicted indices, or when an index of
    a sample lies at or beyond the end of its offset table. *)
Theorem qa_formatted_preds_returns logits samples segs raw_s raw_e sh_s sh_e :
  QuestionAnsweringHead.logits_to_preds logits = Ok (raw_s, raw_e) ->
  QuestionAnsweringHead.shift_indices raw_s raw_e segs = Ok (sh_s, sh_e) ->
  ((forall i sample, nth_error samples i = Some sample ->
      exists s e,
        nth_error sh_s i = Some s /\ nth_error sh_e i = Some e
        /\ 0 <= s < Z.of_nat (length (offsets (tokenized sample)))
        /\ 0 <= e < Z.of_nat (length (offsets (tokenized sample)))) ->
   exists res,
     QuestionAnsweringHead.formatted_preds logits samples segs = Ok res
     /\ QuestionAnsweringHead.task res = "qa"
     /\ length (QuestionAnsweringHead.predictions res) = length samples
     /\ forall i sample p,
          nth_error samples i = Some sample ->
          nth_error (QuestionAnsweringHead.predictions res) i = Some p ->
          QuestionAnsweringHead.pred_context p
          = question_text (clear_text sample)
          /\ QuestionAnsweringHead.pred_probability p = "unkown")
  /\ ((length sh_s < length samples)%nat ->
      QuestionAnsweringHead.formatted_preds logits samples segs
      = Raise IndexError)
  /\ (forall i sample s e,
        nth_error samples i = Some sample ->
        nth_error sh_s i = Some s -> nth_error sh_e i = Some e ->
        Z.of_nat (length (offsets (tokenized sample))) <= s
        \/ Z.of_nat (length (offsets (tokenized sample))) <= e ->
        QuestionAnsweringHead.formatted_preds logits samples segs
        = Raise IndexError).
Proof.
  intros H1 H2. rewrite (formatted_preds_steps _ samples _ _ _ _ _ H1 H2).
  split; [|split].
  - intros Hin.
    destruct (mapM_all_ok (QuestionAnsweringHead.format_sample sh_s sh_e)
                (enumerate samples)) as [ps Hps].
    { intros [i sample] Hi%enumerate_in.
      destruct (Hin i sample Hi) as (s & e & Hs & He & Rs & Re).
      unfold QuestionAnsweringHead.format_sample.
      rewrite (proj2 (getitem_nat sh_s i s) Hs). cbn.
      rewrite (proj2 (getitem_nat sh_e i e) He). cbn.
      destruct (getitem_in_range (offsets (tokenized sample)) s Rs) as [ps ->].
      destruct (getitem_in_range (offsets (tokenized sample)) e Re) as [pe ->].
      cbn. eauto. }
    rewrite Hps. eexists. split; [reflexivity|]. simpl.
    apply mapM_ok in Hps as [Hl Hn]. split; [reflexivity|]. split.
    + rewrite Hl. unfold enumerate. rewrite length_combine, length_seq. lia.
    + intros i sample p Hi Hp.
      destruct (Hn _ _ (enumerate_nth _ _ _ Hi)) as (p' & Hp' & Hf).
      assert (p' = p) as -> by congruence.
      now apply format_sample_fields in Hf.
  - intros Hlen.
    destruct (nth_error samples (length sh_s)) as [sample|] eqn:E;
      [|apply nth_error_None in E; lia].
    rewrite (mapM_raise _ _ IndexError (length sh_s, sample)); [reflexivity| | |].
    + intros x e. apply format_sample_raises.
    + eapply nth_error_In. apply enumerate_nth. exact E.
    + unfold QuestionAnsweringHead.format_sample.
      now rewrite getitem_past_end.
  - intros i sample s e Hi Hs He Hout.
    rewrite (mapM_raise _ _ IndexError (i, sample)); [reflexivity| | |].
    + intros x e'. apply format_sample_raises.
    + eapply nth_error_In. apply enumerate_nth. exact Hi.
    + unfold QuestionAnsweringHead.format_sample.
      rewrite (proj2 (getitem_nat sh_s i s) Hs). cbn.
      rewrite (proj2 (getitem_nat sh_e i e) He). cbn.
      destruct Hout as [Hout|Hout].
      * now rewrite (getitem_beyond _ s Hout).
      * destruct (getitem _ s) as [ps|err] eqn:E; cbn.
        -- now rewrite (getitem_beyond _ e Hout).
        -- now rewrite (getitem_raises _ _ _ E).
Qed.

Lemma qa_formatted_preds_returns_witness :
  (exists res,
      QuestionAnsweringHead.formatted_preds
        qa_example_logits [qa_example_sample] qa_example_segments = Ok res
      /\ QuestionAnsweringHead.task res = "qa"
      /\ length (QuestionAnsweringHead.predictions res) = 1%nat)
  /\ QuestionAnsweringHead.formatted_preds
       qa_example_logits [qa_short_sample] qa_example_segments
     = Raise IndexError.
Proof.
  split.
  - destruct (proj1 (qa_formatted_preds_returns
                       qa_example_logits [qa_example_sample]
                       qa_example_segments [4] [5] [1] [3] eq_refl eq_refl))
      as (res & Hres & Htask & Hlen & _).
    + intros [|[|i]] sample [= <-]. exists 1, 3. simpl. repeat split; lia.
    + exists res. auto.
  - apply (proj2 (proj2 (qa_formatted_preds_returns
                           qa_example_logits [qa_short_sample]
                           qa_example_segments [4] [5] [1] [3]
                           eq_refl eq_refl))
             0%nat qa_short_sample 1 3 eq_refl eq_refl eq_refl).
    right. simpl. lia.
Defined.

(** ** The position of the first context token *)

Section Shifts.

Lemma first_true_spec row : forall i,
  (exists k, nth_error row k = Some true
             /\ (forall j, (j < k)%nat -> nth_error row j = Some false)
             /\ first_true i row = (i + k)%nat)
  \/ (Forall (fun b => b = false) row /\ first_true i row = 0%nat).
Proof.
  induction row as [|b row IH]; intros i.
  - right. split; [constructor|reflexivity].
  - destruct b.
    + left. exists 0%nat. simpl. repeat split; [lia|lia].
    + destruct (IH (S i)) as [(k & Hk & Hlt & Hf)|[Hall Hf]].
      * left. exists (S k). simpl. repeat split; auto; [|lia].
        intros [|j] Hj; [reflexivity|]. apply Hlt. lia.
      * right. split; [now constructor|exact Hf].
Qed.

End Shifts.

(** X10. The shift of a sample is the index of its first segment marker
    greater than zero; a sample without such a marker gets the shift 0,
    so that its predicted indices are used as they are; a sample with
    no markers at all raises [ValueError]. *)
Theorem qa_shift_is_first_context_token :
  (forall segment_ids shifts,
      QuestionAnsweringHead.shifts_of segment_ids = Ok shifts ->
      length shifts = length segment_ids
      /\ forall i row, nth_error segment_ids i = Some row ->
           exists k, nth_error shifts i = Some (Z.of_nat k)
             /\ ((exists m, nth_error row k = Some m /\ 0 < m
                            /\ forall j m', (j < k)%nat ->
                                 nth_error row j = Some m' -> m' <= 0)
                 \/ (k = 0%nat /\ Forall (fun m => m <= 0) row)))
  /\ (forall segment_ids,
        In [] segment_ids ->
        QuestionAnsweringHead.shifts_of segment_ids = Raise ValueError).
Proof.
  split.
  - intros segs shifts H. unfold QuestionAnsweringHead.shifts_of in H.
    unfold np_argmax_bool_axis1 in H. apply mapM_ok in H as [Hl Hn].
    rewrite length_map in Hl. split; [exact Hl|]. intros i row Hrow.
    destruct (Hn i (map (fun z => 0 <? z) row)) as (y & Hy & Hf).
    { now rewrite nth_error_map, Hrow. }
    destruct row as [|m0 row]; [discriminate|].
    simpl map in Hf. injection Hf as <-.
    pose proof (first_true_spec (map (fun z => 0 <? z) (m0 :: row)) 0) as Hspec.
    simpl map in Hspec.
    change (if 0 <? m0 then 0%nat
            else first_true 1 (map (fun z => 0 <? z) row))
      with (first_true 0 ((0 <? m0) :: map (fun z => 0 <? z) row)) in Hy.
    destruct Hspec as [(k & Hk & Hlt & E)|[Hall E]]; rewrite E in Hy;
      eexists; (split; [exact Hy|]).
    + left. change ((0 <? m0) :: map (fun z => 0 <? z) row)
        with (map (fun z => 0 <? z) (m0 :: row)) in Hk, Hlt.
      simpl Nat.add. rewrite nth_error_map in Hk.
      destruct (nth_error (m0 :: row) k) as [m|] eqn:Em; [|discriminate].
      exists m. split; [reflexivity|]. injection Hk as Hk.
      apply Z.ltb_lt in Hk. split; [exact Hk|].
      intros j m' Hj Hm'. specialize (Hlt j Hj).
      rewrite nth_error_map, Hm' in Hlt. injection Hlt as Hlt.
      apply Z.ltb_ge in Hlt. exact Hlt.
    + right. split; [reflexivity|].
      change ((0 <? m0) :: map (fun z => 0 <? z) row)
        with (map (fun z => 0 <? z) (m0 :: row)) in Hall.
      rewrite List.Forall_forall in Hall |- *. intros m Hm.
      apply Z.ltb_ge. apply Hall. now apply in_map.
  - intros segs Hin. unfold QuestionAnsweringHead.shifts_of, np_argmax_bool_axis1.
    rewrite (mapM_raise _ _ ValueError []).
    + reflexivity.
    + intros [|b row] e; simpl; congruence.
    + change [] with (map (fun z => 0 <? z) ([] : list Z)). now apply in_map.
    + reflexivity.
Qed.

Lemma combine_firstn_both {A B} (l : list A) : forall (l' : list B),
  combine l l' = combine (firstn (length l') l) (firstn (length l) l').
Proof.
  induction l as [|x l IH]; intros [|y l']; try reflexivity.
  simpl. now rewrite <- IH.
Qed.

(** X11. [initial_token_only] never raises on arguments of different
    lengths: it reads both only up to the shorter one, so the elements
    and the flags beyond it are dropped silently, and the result is
    never longer than either argument. *)
Theorem initial_token_only_truncates {A : Type} (seq : list A)
    (mask : list bool) :
  TokenClassificationHead.initial_token_only seq mask
  = TokenClassificationHead.initial_token_only
      (firstn (length mask) seq) (firstn (length seq) mask)
  /\ (length (TokenClassificationHead.initial_token_only seq mask)
      <= Nat.min (length seq) (length mask))%nat
  /\ (forall more,
        TokenClassificationHead.initial_token_only
          (seq ++ more) (firstn (length seq) mask)
        = TokenClassificationHead.initial_token_only seq mask).
Proof.
  rewrite !initial_token_only_filter. split; [|split].
  - now rewrite <- combine_firstn_both.
  - rewrite length_map.
    etransitivity; [apply filter_length_le|].
    rewrite length_combine. lia.
  - intros more. rewrite initial_token_only_filter.
    rewrite (combine_firstn_r mask seq).
    rewrite (combine_firstn_l (firstn (length seq) mask) (seq ++ more)).
    rewrite (combine_firstn_l (firstn (length seq) mask) seq).
    rewrite length_firstn.
    destruct (Nat.le_ge_cases (length seq) (length mask)) as [H|H].
    + rewrite Nat.min_l by exact H. now rewrite firstn_app, Nat.sub_diag,
        firstn_O, app_nil_r.
    + rewrite Nat.min_r by exact H.
      rewrite firstn_app.
      replace (length mask - length seq)%nat with 0%nat by lia.
      now rewrite firstn_O, app_nil_r.
Qed.

(** ** Word alignment of predictions, probabilities and labels *)

Section WordAlignment.
Import TokenClassificationHead.

Lemma mapM_length {A B} (f : A -> result B) xs ys :
  mapM f xs = Ok ys -> length ys = length xs.
Proof. intros H. now apply mapM_ok in H as [Hl _]. Qed.

Lemma initial_token_only_length {A B} (mask : list bool) :
  forall (s : list A) (s' : list B),
    length s = length s' ->
    length (initial_token_only s mask) = length (initial_token_only s' mask).
Proof.
  intros s s' H. rewrite !initial_token_only_filter, !length_map.
  revert s s' H. induction mask as [|b mask IH]; intros [|x s] [|y s'] H;
    try discriminate; try reflexivity.
  simpl. destruct b; simpl; rewrite (IH s s') by (simpl in H; lia); reflexivity.
Qed.

(** The words of sample [idx]: the row [idx] of a per-token array,
    filtered by the mask. *)
Lemma words_of_sample {A B C} (f : list A -> result (list B))
      (g : list B -> result C) (rows : list (list A)) (per_token : list (list B))
      (initial_mask : list (list bool)) (out : list C) i o :
  mapM f rows = Ok per_token ->
  mapM (fun '(idx, im) =>
          r ← getitem per_token (Z.of_nat idx);
          g (initial_token_only r im))
       (enumerate initial_mask) = Ok out ->
  nth_error out i = Some o ->
  exists row r im,
    nth_error rows i = Some row /\ f row = Ok r
    /\ nth_error initial_mask i = Some im
    /\ g (initial_token_only r im) = Ok o.
Proof.
  intros Hf Hout Ho.
  destruct (mapM_nth_error _ _ _ _ _ Hout Ho) as ([j im] & Hj & Hb).
  apply enumerate_nth_inv in Hj as [-> Him].
  apply bind_ok in Hb as (r & Hr & Hg). apply getitem_nat in Hr.
  destruct (mapM_nth_error _ _ _ _ _ Hf Hr) as (row & Hrow & Hfr).
  exists row, r, im. auto.
Qed.

End WordAlignment.

(** X12. The token classification head keeps predictions, probabilities
    and ground-truth labels aligned word by word: for a sample whose
    logits and label ids cover the same number of tokens, the lists
    returned by [logits_to_preds], [logits_to_probs] and
    [prepare_labels] have the same length, and each of the first two
    has one list per row of the initial mask. *)
Theorem token_words_aligned logits initial_mask label_map label_ids
    preds probs labels :
  TokenClassificationHead.logits_to_preds logits initial_mask label_map
  = Ok preds ->
  TokenClassificationHead.logits_to_probs logits initial_mask = Ok probs ->
  TokenClassificationHead.prepare_labels label_map label_ids initial_mask
  = Ok labels ->
  (forall i row ids, nth_error logits i = Some row ->
                     nth_error label_ids i = Some ids ->
                     length row = length ids) ->
  length preds = length initial_mask
  /\ length probs = length initial_mask
  /\ forall i p q l,
       nth_error preds i = Some p -> nth_error probs i = Some q ->
       nth_error labels i = Some l ->
       length p = length q /\ length p = length l.
Proof.
  intros Hpreds Hprobs Hlabels Hshape.
  unfold TokenClassificationHead.logits_to_preds in Hpreds.
  apply bind_ok in Hpreds as (preds_token & Htok & Hpreds).
  unfold TokenClassificationHead.logits_to_probs in Hprobs.
  apply bind_ok in Hprobs as (token_probs & Hpr & Hprobs).
  assert (Hen : length (enumerate initial_mask) = length initial_mask).
  { unfold enumerate. rewrite length_combine, length_seq. lia. }
  split; [rewrite (mapM_length _ _ _ Hpreds); exact Hen|].
  split; [rewrite (mapM_length _ _ _ Hprobs); exact Hen|].
  intros i p q l Hp Hq Hl.
  destruct (words_of_sample _ (mapM label_map) _ _ _ _ _ _ Htok Hpreds Hp)
    as (row & r & im & Hrow & Hr & Him & Hg).
  destruct (words_of_sample _ (fun x => Ok x) _ _ _ _ _ _ Hpr Hprobs Hq)
    as (row' & r' & im' & Hrow' & Hr' & Him' & Hg').
  assert (row' = row) as -> by congruence.
  assert (im' = im) as -> by congruence.
  injection Hg' as <-.
  unfold TokenClassificationHead.prepare_labels in Hlabels.
  destruct (mapM_nth_error _ _ _ _ _ Hlabels Hl) as ([ids im''] & Hc & Hm).
  assert (Hids : nth_error label_ids i = Some ids /\ nth_error initial_mask i = Some im'').
  { clear -Hc. revert initial_mask i Hc.
    induction label_ids as [|a xs IH]; intros [|b ys] [|i] Hc;
      try discriminate; simpl in *; [split; congruence|auto]. }
  destruct Hids as [Hids Him''].
  assert (im'' = im) as -> by congruence.
  apply mapM_length in Hg, Hm, Hr, Hr'.
  rewrite Hg, Hm.
  split; apply initial_token_only_length; [congruence|].
  rewrite Hr. now apply (Hshape i).
Qed.

Lemma token_words_aligned_witness :
  exists preds probs labels,
    TokenClassificationHead.logits_to_preds ner_logits ner_initial_mask
      ner_label_map = Ok preds
    /\ TokenClassificationHead.logits_to_probs ner_logits ner_initial_mask
       = Ok probs
    /\ TokenClassificationHead.prepare_labels ner_label_map ner_label_ids
         ner_initial_mask = Ok labels
    /\ preds = [["B-PER"; "B-PER"]]
    /\ length preds = length ner_initial_mask
    /\ length probs = length ner_initial_mask.
Proof.
  eexists _, _, _.
  split; [reflexivity|]. split; [reflexivity|]. split; [reflexivity|].
  split; [reflexivity|].
  refine (let H := token_words_aligned ner_logits ner_initial_mask
                     ner_label_map ner_label_ids _ _ _
                     eq_refl eq_refl eq_refl _ in
          conj (proj1 H) (proj1 (proj2 H))).
  intros [|i] row ids Hrow Hids.
  - injection Hrow as <-. injection Hids as <-. reflexivity.
  - destruct i; discriminate.
Defined.

(** ** Predictions and labels of the masked-token head *)

Section MaskedWords.
Import BertLMHead.

Lemma map2_skipn {A B C} (f : A -> B -> C) n : forall a b,
  skipn n (map2 f a b) = map2 f (skipn n a) (skipn n b).
Proof.
  induction n as [|n IH]; intros [|x a] [|y b]; simpl; try reflexivity.
  - now destruct (skipn n a).
  - apply IH.
Qed.

Lemma map2_firstn {A B C} (f : A -> B -> C) n : forall a b,
  firstn n (map2 f a b) = map2 f (firstn n a) (firstn n b).
Proof.
  induction n as [|n IH]; intros [|x a] [|y b]; simpl; try reflexivity.
  now rewrite IH.
Qed.

Lemma masked_words_length (a b : list Z) :
  List.Forall (fun p => 0 <= p) a -> (length b <= length a)%nat ->
  length (List.filter (fun x => negb (x =? -1))
            (map2 (fun p l => if l =? -1 then -1 else p) a b))
  = length (List.filter (fun x => negb (x =? -1)) b).
Proof.
  intros Ha. revert b. induction Ha as [|p a Hp Ha IH]; intros [|l b] Hlen;
    try reflexivity; [simpl in Hlen; lia|].
  simpl. destruct (Z.eqb_spec l (-1)) as [->|Hl]; simpl.
  - apply IH. simpl in Hlen. lia.
  - destruct (Z.eqb_spec p (-1)); [lia|]. simpl. f_equal. apply IH.
    simpl in Hlen. lia.
Qed.

Lemma Forall_firstn_skipn {A} (P : A -> Prop) n k (l : list A) :
  List.Forall P l -> List.Forall P (firstn n (skipn k l)).
Proof.
  intros H. rewrite List.Forall_forall in H |- *. intros x Hx.
  apply H. rewrite <- (firstn_skipn k l). apply in_or_app. right.
  rewrite <- (firstn_skipn n (skipn k l)). apply in_or_app. now left.
Qed.

Lemma np_argmax_nonneg rows ids :
  mapM np_argmax rows = Ok ids -> List.Forall (fun p => 0 <= p) ids.
Proof.
  intros H. rewrite List.Forall_forall. intros p Hp.
  apply In_nth_error in Hp as [i Hi].
  destruct (mapM_nth_error _ _ _ _ _ H Hi) as (row & _ & Ha).
  apply np_argmax_first_max in Ha. now destruct Ha as (m & Hk & _).
Qed.

Lemma words_of_length label_map ids ws :
  words_of label_map ids = Ok ws ->
  length ws = length (List.filter (fun x => negb (x =? -1)) ids).
Proof. unfold words_of. apply mapM_length. Qed.

End MaskedWords.

(** X13. The masked-token head keeps predictions and labels aligned:
    for logits of shape [b, s, v] and label ids of shape [b, s],
    [logits_to_preds] and [prepare_labels] return [b] sequences each,
    and the predictions of a sequence are as many as its labels, one
    for each position whose label is not the sentinel -1.  For label
    ids of another shape [logits_to_preds] stops at its assertion. *)
Theorem bert_lm_preds_match_labels logits label_map lm_label_ids b s v
    preds labels :
  BertLMHead.logits_shape logits = (b, s, v) ->
  BertLMHead.labels_shape lm_label_ids = (b, s) ->
  length (BertLMHead.logits_data logits) = (b * s * v)%nat ->
  length (BertLMHead.labels_data lm_label_ids) = (b * s)%nat ->
  BertLMHead.logits_to_preds logits label_map lm_label_ids
  = Passed (Ok preds) ->
  BertLMHead.prepare_labels label_map lm_label_ids = Ok labels ->
  length preds = b /\ length labels = b
  /\ (forall i p l,
        nth_error preds i = Some p -> nth_error labels i = Some l ->
        length p = length l
        /\ length l
           = length (List.filter (fun x => negb (x =? -1))
                       (firstn s (skipn (i * s)
                                    (BertLMHead.labels_data lm_label_ids)))))
  /\ (forall other,
        BertLMHead.labels_shape other <> (b, s) ->
        BertLMHead.logits_to_preds logits label_map other = AssertionError).
Proof.
  intros Hls Hss Hld Hll Hpreds Hlabels.
  unfold BertLMHead.logits_to_preds in Hpreds |- *. rewrite Hls in Hpreds |- *.
  destruct (mapM np_argmax _) as [ids|e] eqn:Hids; [|discriminate].
  rewrite Hss, !Nat.eqb_refl in Hpreds. simpl in Hpreds.
  injection Hpreds as Hpreds.
  unfold BertLMHead.prepare_labels in Hlabels. rewrite Hss in Hlabels.
  assert (Hrows : forall A (d : list A), length (Torch.rows_of b s d) = b).
  { intros A d. unfold Torch.rows_of. now rewrite length_map, length_seq. }
  assert (Hlp : length preds = b)
    by (rewrite (mapM_length _ _ _ Hpreds); apply Hrows).
  assert (Hll' : length labels = b)
    by (rewrite (mapM_length _ _ _ Hlabels); apply Hrows).
  split; [exact Hlp|]. split; [exact Hll'|]. split.
  - intros i p l Hp Hl.
    assert (Hi : (i < b)%nat).
    { rewrite <- Hlp. apply nth_error_Some. congruence. }
    destruct (mapM_nth_error _ _ _ _ _ Hpreds Hp) as (prow & Hprow & Hwp).
    destruct (mapM_nth_error _ _ _ _ _ Hlabels Hl) as (lrow & Hlrow & Hwl).
    rewrite rows_of_nth_error in Hprow by exact Hi.
    rewrite rows_of_nth_error in Hlrow by exact Hi.
    injection Hprow as <-. injection Hlrow as <-.
    apply words_of_length in Hwp, Hwl. rewrite Hwp, Hwl. split; [|reflexivity].
    rewrite map2_skipn, map2_firstn. apply masked_words_length.
    + apply Forall_firstn_skipn. eapply np_argmax_nonneg. exact Hids.
    + apply mapM_length in Hids. unfold Torch.rows_of in Hids.
      rewrite length_map, length_seq in Hids.
      rewrite !length_firstn, !length_skipn. lia.
  - intros other Hother.
    destruct (BertLMHead.labels_shape other) as [b' s'] eqn:E.
    destruct (Nat.eqb_spec b b') as [->|]; [|reflexivity].
    destruct (Nat.eqb_spec s s') as [->|]; [congruence|reflexivity].
Qed.

Lemma bert_lm_preds_match_labels_witness :
  BertLMHead.logits_to_preds lm_preds_logits lm_vocab lm_preds_labels
  = Passed (Ok [["dog"]])
  /\ BertLMHead.prepare_labels lm_vocab lm_preds_labels = Ok [["cat"]]
  /\ length [["dog"]] = 1%nat.
Proof.
  split; [reflexivity|]. split; [reflexivity|].
  exact (proj1 (bert_lm_preds_match_labels lm_preds_logits lm_vocab
                  lm_preds_labels 1%nat 3%nat 2%nat [["dog"]] [["cat"]]
                  eq_refl eq_refl eq_refl eq_refl eq_refl eq_refl)).
Defined.

(** ** Probabilities of the text classification head *)

Section Probabilities.
Import Torch.
Local Open Scope R_scope.

Lemma exp_sum_bounds (row : list Q) q :
  In q row ->
  0 < exp (Q2R q) <= Rsum (map (fun q' => exp (Q2R q')) row).
Proof.
  intros Hin. split; [apply exp_pos|].
  induction row as [|a row IH]; [destruct Hin|]. simpl.
  assert (Hpos : 0 <= Rsum (map (fun q' => exp (Q2R q')) row)).
  { clear. induction row as [|b row IH]; simpl; [lra|].
    pose proof (exp_pos (Q2R b)). lra. }
  destruct Hin as [->|Hin].
  - lra.
  - specialize (IH Hin). pose proof (exp_pos (Q2R a)). lra.
Qed.

Lemma softmax_bounds (row : list Q) p :
  In p (softmax row) -> 0 < p <= 1.
Proof.
  unfold softmax. intros Hin. apply in_map_iff in Hin as (q & <- & Hq).
  destruct (exp_sum_bounds row q Hq) as [Hpos Hle].
  set (S := Rsum (map (fun q' => exp (Q2R q')) row)) in *.
  assert (HS : 0 < S) by lra. split.
  - apply Rdiv_lt_0_compat; assumption.
  - apply (Rmult_le_reg_r S); [exact HS|]. unfold Rdiv.
    rewrite Rmult_assoc, Rinv_l by lra. lra.
Qed.

Lemma fold_Rmax_bounds (P : R -> Prop) xs : forall x,
  P x -> (forall y, In y xs -> P y) -> P (fold_left Rmax xs x).
Proof.
  induction xs as [|y xs IH]; intros x Hx Hall; [exact Hx|].
  simpl. apply IH.
  - apply Rmax_case; [exact Hx|]. apply Hall. now left.
  - intros z Hz. apply Hall. now right.
Qed.

Lemma max_prob_bounds row p : max_prob row = Ok p -> 0 < p <= 1.
Proof.
  unfold max_prob, max_of. intros H.
  destruct (softmax row) as [|x xs] eqn:E; [discriminate|].
  injection H as <-.
  apply (fold_Rmax_bounds (fun p => 0 < p <= 1)).
  - apply (softmax_bounds row). rewrite E. now left.
  - intros y Hy. apply (softmax_bounds row). rewrite E. now right.
Qed.

End Probabilities.

(** X14. [TextClassificationHead.logits_to_probs] returns one value per
    sample, and each value lies in (0, 1]; it raises on a sample
    without logits. *)
Theorem text_probs_are_probabilities :
  (forall logits probs,
      TextClassificationHead.logits_to_probs logits = Ok probs ->
      length probs = length logits
      /\ forall p, In p probs -> (0 < p <= 1)%R)
  /\ (forall logits,
        In [] logits ->
        TextClassificationHead.logits_to_probs logits = Raise IndexError).
Proof.
  split.
  - intros logits probs H. unfold TextClassificationHead.logits_to_probs in H.
    split; [now apply mapM_length in H|].
    intros p Hp. apply In_nth_error in Hp as [i Hi].
    destruct (mapM_nth_error _ _ _ _ _ H Hi) as (row & _ & Hrow).
    now apply max_prob_bounds in Hrow.
  - intros logits Hin. unfold TextClassificationHead.logits_to_probs.
    rewrite (mapM_raise Torch.max_prob logits IndexError []); auto.
    intros row e. unfold Torch.max_prob, Torch.max_of.
    destruct (Torch.softmax row); congruence.
Qed.

(** X15. [TextClassificationHead.formatted_preds] does not truncate:
    when the number of samples differs from the number of rows of
    logits it stops at its assertion, and when it returns, the result
    has one record per sample, in order, with no start and no end, the
    sample's text as context and the predicted label. *)
Theorem text_formatted_preds_records :
  (forall logits label_map samples preds probs,
      TextClassificationHead.logits_to_preds logits label_map = Ok preds ->
      TextClassificationHead.logits_to_probs logits = Ok probs ->
      length samples <> length logits ->
      TextClassificationHead.formatted_preds logits label_map samples
      = AssertionError)
  /\ (forall logits label_map samples res,
        TextClassificationHead.formatted_preds logits label_map samples
        = Passed (Ok res) ->
        TextClassificationHead.task res = "text_classification"
        /\ length (TextClassificationHead.predictions res) = length samples
        /\ length samples = length logits
        /\ exists preds,
             TextClassificationHead.logits_to_preds logits label_map = Ok preds
             /\ forall i sample,
                  nth_error samples i = Some sample ->
                  exists r label,
                    nth_error (TextClassificationHead.predictions res) i = Some r
                    /\ nth_error preds i = Some label
                    /\ TextClassificationHead.pred_start r = None
                    /\ TextClassificationHead.pred_end r = None
                    /\ TextClassificationHead.pred_context r
                       = text (clear_text sample)
                    /\ TextClassificationHead.pred_label r = label).
Proof.
  assert (Hlens : forall logits label_map preds probs,
             TextClassificationHead.logits_to_preds logits label_map = Ok preds ->
             TextClassificationHead.logits_to_probs logits = Ok probs ->
             length preds = length logits /\ length probs = length logits).
  { intros logits label_map preds probs Hp Hq.
    unfold TextClassificationHead.logits_to_preds in Hp.
    apply bind_ok in Hp as (ids & Hids & Hp).
    apply mapM_length in Hids, Hp, Hq. split; congruence. }
  split.
  - intros logits label_map samples preds probs Hp Hq Hne.
    destruct (Hlens _ _ _ _ Hp Hq) as [Lp Lq].
    unfold TextClassificationHead.formatted_preds. rewrite Hp, Hq.
    cbv zeta. rewrite length_map, Lp, Lq, Nat.eqb_refl.
    destruct (Nat.eqb_spec (length logits) (length samples)); [congruence|].
    reflexivity.
  - intros logits label_map samples res H.
    unfold TextClassificationHead.formatted_preds in H.
    destruct (TextClassificationHead.logits_to_preds logits label_map)
      as [preds|e] eqn:Hp; [|discriminate].
    destruct (TextClassificationHead.logits_to_probs logits)
      as [probs|e] eqn:Hq; [|discriminate].
    destruct (Hlens _ _ _ _ Hp Hq) as [Lp Lq].
    cbv zeta in H. rewrite length_map, Lp, Lq, Nat.eqb_refl in H.
    destruct (Nat.eqb_spec (length logits) (length samples)) as [Hls|];
      [|discriminate].
    simpl in H. injection H as <-. simpl. split; [reflexivity|].
    split.
    { unfold zip3. rewrite length_map, !length_combine, length_map. lia. }
    split; [congruence|]. exists preds. split; [reflexivity|].
    intros i sample Hi.
    assert (Hil : (i < length samples)%nat)
      by (apply nth_error_Some; congruence).
    destruct (nth_error preds i) as [label|] eqn:El;
      [|apply nth_error_None in El; lia].
    destruct (nth_error probs i) as [prob|] eqn:Eq;
      [|apply nth_error_None in Eq; lia].
    eexists _, label. split; [|split; [reflexivity|]].
    + rewrite nth_error_map. unfold zip3.
      rewrite (combine_nth_error _ _ i (label, prob) (text (clear_text sample))).
      * reflexivity.
      * now apply combine_nth_error.
      * now rewrite nth_error_map, Hi.
    + simpl. auto.
Qed.

(** ** Spans and words *)

Section SpansAndWords.
Import TokenClassificationHead.


End SpansAndWords.


